(** * abaverify: a verification-test harness for Abaqus user subroutines

    Shallow embedding of the parts of [abaverify/main.py] that the
    specification talks about: the result comparator
    ([TestCase._runAssertionsOnResults]), the run-time instrumentation
    ([_measureRunTimes.processLine]), the line streamer ([_outputStreamer]),
    the parametric test generator ([ParametricMetaClass.__new__]) and the
    handling of the per-job expiration ([TestCase.runTest]); and of the
    code around them: the call of the solver ([_callAbaqus]), the block of
    [TestCase._runModel] that runs it, the set-up of a remote host in
    [runTests] and the removal of temporary files ([TestCase.tearDown]).

    Conventions of the embedding.
    - The program is Python 2 (print statements, [file], [it.izip]).
    - A Python number is an [int] or [long], an integer of any size, or a
      [float], a binary64 number of IEEE 754 with its rounding
      ([Number.number]).  The readings of the clock are rationals.
    - A [dict] used as a record is a [gmap string _]; a missing key raises
      [KeyError], as indexing does in Python.
    - An exception is a value of [exn]; code that may raise returns
      [res A], the error monad below. *)

From Stdlib Require Import ZArith QArith Qabs String Ascii List Lia DecimalString.
From Stdlib Require Import SpecFloat.
From stdpp Require Import gmap strings list.

Local Open Scope string_scope.

(** ** Exceptions and the error monad *)

Inductive exn : Type :=
| KeyError (key : string)
| IndexError
| TypeError
| OverflowError
| IOError (path : string)
| OSError (path : string)
| AssertionError (msg : string)
| ValueError (msg : string)
| Exception (msg : string).

Inductive res (A : Type) : Type :=
| Ok (a : A)
| Raise (e : exn).
Arguments Ok {A} a.
Arguments Raise {A} e.

Definition bind {A B : Type} (m : res A) (k : A -> res B) : res B :=
  match m with
  | Ok a => k a
  | Raise e => Raise e
  end.

Notation "'let*' x ':=' m 'in' k" := (bind m (fun x => k))
  (at level 10, x name, m at level 100, k at level 200).
Notation "'check' m 'in' k" := (bind m (fun _ => k))
  (at level 10, m at level 100, k at level 200).

(** [LookupError] is the common base class of [KeyError] and [IndexError]. *)
Definition is_LookupError (e : exn) : bool :=
  match e with
  | KeyError _ | IndexError => true
  | _ => false
  end.

(** ** Python numbers *)

Module Number.

(** The format of a Python [float]: binary64. *)
Definition prec : Z := 53.
Definition emax : Z := 1024.

(** An [int] or [long], or a [float].  Python 2 turns an [int] that
    overflows into a [long], so the integers are those of [Z]. *)
Inductive number : Type :=
| Int (n : Z)
| Float (f : spec_float).

(** The nearest [float] of an integer, ties to even; an infinity when the
    integer is out of range. *)
Definition of_int (n : Z) : spec_float := binary_normalize prec emax n 0 false.

(** The [float] that Python reads for the decimal literal of [n / 10^k],
    the nearest to the quotient, for [n] and [10^k] below [2^53]. *)
Definition decimal (n : Z) (k : nat) : spec_float :=
  SFdiv prec emax (of_int n) (of_int (10 ^ Z.of_nat k)).

(** The conversion of an operand of mixed arithmetic: an integer too large
    for a [float] raises [OverflowError]. *)
Definition to_float (x : number) : res spec_float :=
  match x with
  | Float f => Ok f
  | Int n =>
      match of_int n with
      | S754_infinity _ => Raise OverflowError
      | f => Ok f
      end
  end.

(** [x - y]: exact on two integers; otherwise both operands are taken as
    [float] and the difference is rounded to the nearest [float]. *)
Definition sub (x y : number) : res number :=
  match x, y with
  | Int a, Int b => Ok (Int (a - b))
  | _, _ =>
      let* fx := to_float x in
      let* fy := to_float y in
      Ok (Float (SFsub prec emax fx fy))
  end.

(** [abs(x)] *)
Definition abs (x : number) : number :=
  match x with
  | Int n => Int (Z.abs n)
  | Float f => Float (SFabs f)
  end.

(** An integer against a [float]: Python compares the two values exactly,
    without converting the integer.  [None] when the [float] is a NaN. *)
Definition compare_int_float (n : Z) (f : spec_float) : option comparison :=
  match f with
  | S754_nan => None
  | S754_infinity s => Some (if s then Gt else Lt)
  | S754_zero _ => Some (n ?= 0)%Z
  | S754_finite s m e =>
      let v := cond_Zopp s (Zpos m) in
      match e with
      | Zneg p => Some (n * 2 ^ Zpos p ?= v)%Z
      | _ => Some (n ?= v * 2 ^ e)%Z
      end
  end.

Definition compare (x y : number) : option comparison :=
  match x, y with
  | Int a, Int b => Some (a ?= b)%Z
  | Float f, Float g => SFcompare f g
  | Int a, Float g => compare_int_float a g
  | Float f, Int b => option_map CompOpp (compare_int_float b f)
  end.

(** [x == y], [x <= y] and [x < y]; all three are false on a NaN. *)
Definition eqb (x y : number) : bool :=
  match compare x y with
  | Some Eq => true
  | _ => false
  end.

Definition leb (x y : number) : bool :=
  match compare x y with
  | Some (Lt | Eq) => true
  | _ => false
  end.

Definition ltb (x y : number) : bool :=
  match compare x y with
  | Some Lt => true
  | _ => false
  end.

(** A zero or a finite [float], and not an infinity or a NaN. *)
Definition finite (f : spec_float) : bool :=
  match f with
  | S754_zero _ | S754_finite _ _ _ => true
  | S754_infinity _ | S754_nan => false
  end.

(** The value of a number as a rational; an infinity and a NaN have
    none. *)
Definition value (x : number) : option Q :=
  match x with
  | Int n => Some (inject_Z n)
  | Float (S754_zero _) => Some 0%Q
  | Float (S754_finite s m e) =>
      Some (inject_Z (cond_Zopp s (Zpos m)) * Qpower 2 e)%Q
  | Float (S754_infinity _) | Float S754_nan => None
  end.

(** [round(x, 7) == 0] for [x = abs(...)].  [round] takes its argument as a
    [float] and rounds it to the nearest multiple of [10^-7], which is zero
    exactly when the value of [x] is below [5 * 10^-8]; no [float] has that
    value.  Zeros, infinities and NaNs round to themselves. *)
Definition rounds_to_zero (x : number) : res bool :=
  let* f := to_float x in
  Ok match f with
     | S754_zero _ => true
     | S754_finite _ m (Zneg p) => (Zpos m * 20000000 <? 2 ^ Zpos p)%Z
     | _ => false
     end.

End Number.

Abbreviation number := Number.number.
Abbreviation Int := Number.Int.
Abbreviation Float := Number.Float.

(** An integer literal of the program is written as it is. *)
Coercion Number.Int : Z >-> Number.number.

(** ** Python values found in a results file *)

#[warnings="-register-all"]
Inductive pyval : Type :=
| VNone
| VNum (x : number)
| VStr (s : string)
| VList (l : list pyval)
| VTuple (l : list pyval).
Arguments VNum x%_Z.

(** [hasattr(v, '__iter__')]: lists and tuples have the attribute; numbers,
    [None] and (in Python 2) [str] do not. *)
Definition has_iter (v : pyval) : bool :=
  match v with
  | VList _ | VTuple _ => true
  | _ => false
  end.

(** [isinstance(v, tuple)] *)
Definition is_tuple (v : pyval) : bool :=
  match v with
  | VTuple _ => true
  | _ => false
  end.

(** [first == second] *)
Fixpoint py_eq (a b : pyval) {struct a} : bool :=
  let fix all_eq (xs ys : list pyval) {struct xs} : bool :=
    match xs, ys with
    | [], [] => true
    | x :: xs', y :: ys' => py_eq x y && all_eq xs' ys'
    | _, _ => false
    end in
  match a, b with
  | VNone, VNone => true
  | VNum x, VNum y => Number.eqb x y
  | VStr s, VStr t => String.eqb s t
  | VList xs, VList ys => all_eq xs ys
  | VTuple xs, VTuple ys => all_eq xs ys
  | _, _ => false
  end.

(** [len(v)] *)
Definition py_len (v : pyval) : res nat :=
  match v with
  | VList l | VTuple l => Ok (length l)
  | VStr s => Ok (String.length s)
  | VNone | VNum _ => Raise TypeError
  end.

(** The one-character strings of [s], as iterating over a [str] gives them. *)
Fixpoint chars (s : string) : list pyval :=
  match s with
  | EmptyString => []
  | String c s' => VStr (String c EmptyString) :: chars s'
  end.

(** The elements of [v] as [zip] and indexing see them. *)
Definition py_items (v : pyval) : res (list pyval) :=
  match v with
  | VList l | VTuple l => Ok l
  | VStr s => Ok (chars s)
  | VNone | VNum _ => Raise TypeError
  end.

(** [v[i]] for [i] in [range(...)], hence non-negative. *)
Definition py_index (v : pyval) (i : nat) : res pyval :=
  let* l := py_items v in
  match l !! i with
  | Some x => Ok x
  | None => Raise IndexError
  end.

(** [r[key]] on a dict. *)
Definition getitem (r : gmap string pyval) (key : string) : res pyval :=
  match r !! key with
  | Some v => Ok v
  | None => Raise (KeyError key)
  end.

(** ** unittest assertions (Python 2.7 [unittest/case.py]) *)

(** [abs(first - second) <= delta] for a [delta] that is not [None].
    Subtraction is defined on numbers only, and is that of the numbers:
    exact on integers, rounded on [float]s.  Python 2 orders a number before
    every string, list and tuple, so the comparison holds for such a
    [delta]. *)
Definition within_delta (first second delta : pyval) : res bool :=
  match first, second with
  | VNum a, VNum b =>
      let* d := Number.sub a b in
      match delta with
      | VNum t => Ok (Number.leb (Number.abs d) t)
      | VNone => Ok false
      | VStr _ | VList _ | VTuple _ => Ok true
      end
  | _, _ => Raise TypeError
  end.

(** [round(abs(second - first), 7) == 0] *)
Definition rounds_to_zero (first second : pyval) : res bool :=
  match first, second with
  | VNum a, VNum b =>
      let* d := Number.sub b a in
      Number.rounds_to_zero (Number.abs d)
  | _, _ => Raise TypeError
  end.

Definition assertEqual (first second : pyval) (msg : string) : res unit :=
  if py_eq first second then Ok tt else Raise (AssertionError msg).

Definition assertEqual_len (n m : nat) (msg : string) : res unit :=
  if Nat.eqb n m then Ok tt else Raise (AssertionError msg).

(** [assertAlmostEqual(first, second, delta=delta)]: equal values pass at
    once; otherwise the difference is compared with [delta], or rounded to
    seven places when [delta] is [None].  The message of the failure stands
    for the one unittest formats from the three values. *)
Definition assertAlmostEqual (first second delta : pyval) : res unit :=
  if py_eq first second then Ok tt
  else
    match delta with
    | VNone =>
        let* b := rounds_to_zero first second in
        if b then Ok tt else Raise (AssertionError "not almost equal")
    | _ =>
        let* b := within_delta first second delta in
        if b then Ok tt else Raise (AssertionError "not within delta")
    end.

(** ** The result comparator: [TestCase._runAssertionsOnResults] *)

Module Comparator.

Abbreviation record := (gmap string pyval).

(** [key in r] *)
Definition has_key (r : record) (key : string) : bool :=
  bool_decide (is_Some (r !! key)).

(** A [for] loop whose body may raise: the first exception ends it. *)
Fixpoint for_each {A : Type} (body : A -> res unit) (l : list A) : res unit :=
  match l with
  | [] => Ok tt
  | x :: l' => check body x in for_each body l'
  end.

(** [for (cv, rv, tolerance) in zip(computed_val, reference_val, tolerance):
       self.assertAlmostEqual(cv, rv, delta=tolerance)] *)
Fixpoint assert_components (cs rs ts : list pyval) : res unit :=
  match cs, rs, ts with
  | c :: cs', r :: rs', t :: ts' =>
      check assertAlmostEqual c r t in assert_components cs' rs' ts'
  | _, _, _ => Ok tt
  end.

(** The body of the loop over the indices of a sequence-shaped computed
    value (lines 498-520). *)
Definition assert_element (r : record) (i : nat) : res unit :=
  let* cv := getitem r "computedValue" in
  let* computed_val := py_index cv i in
  let* rv := getitem r "referenceValue" in
  let* reference_val := py_index rv i in
  if is_tuple reference_val then
    let* tolerance_for_result_obj := getitem r "tolerance" in
    let* n := py_len computed_val in
    let* m := py_len reference_val in
    check assertEqual_len n m
      "Specified reference value should be same length as Computed value" in
    let* tolerance :=
      (if is_tuple tolerance_for_result_obj then Ok tolerance_for_result_obj
       else py_index tolerance_for_result_obj i) in
    let* m' := py_len reference_val in
    let* k := py_len tolerance in
    check assertEqual_len m' k
      "Specified tolerance tople should be the same length as the ref" in
    let* cs := py_items computed_val in
    let* rs := py_items reference_val in
    let* ts := py_items tolerance in
    assert_components cs rs ts
  else
    let* tol := getitem r "tolerance" in
    let* tolerance_for_result_obj := py_index tol i in
    assertAlmostEqual computed_val reference_val tolerance_for_result_obj.

(** The body of [for r in results] (lines 493-529). *)
Definition assert_record (r : record) : res unit :=
  let* cv := getitem r "computedValue" in
  if has_iter cv then
    let* n := py_len cv in
    for_each (assert_element r) (seq 0 n)
  else if has_key r "tolerance" then
    let* c := getitem r "computedValue" in
    let* rv := getitem r "referenceValue" in
    let* tol := getitem r "tolerance" in
    assertAlmostEqual c rv tol
  else if has_key r "referenceValue" then
    let* c := getitem r "computedValue" in
    let* rv := getitem r "referenceValue" in
    assertEqual c rv "not equal"
  else
    Ok tt.

(** [posixpath.join(a, b)] *)
Definition path_join (a b : string) : string :=
  if String.prefix "/" b then b
  else if String.eqb a "" || String.eqb (String.substring (String.length a - 1) 1 a) "/"
       then a +:+ b
       else a +:+ "/" +:+ b.

Definition dquote : string := String (ascii_of_nat 34) EmptyString.

Definition outputFilePath (cwd jobName : string) : string :=
  let outputFileName := jobName +:+ "_results.py" in
  let outputFileDir := path_join cwd "testOutput" in
  path_join outputFileDir outputFileName.

Definition missing_results_message (path : string) : string :=
  "No results file provided by process_results.py. Looking for "
    +:+ dquote +:+ path +:+ dquote.

(** [_runAssertionsOnResults(jobName, func, arguments)].  [cwd] is
    [os.getcwd()]; [files] maps the path of each structured results file
    that exists to the [results] list it defines; [func], when supplied,
    is the caller's own assertion function, taken here by its outcome. *)
Definition runAssertionsOnResults
    (cwd : string) (files : gmap string (list record))
    (jobName : string) (func : option (res unit)) : res unit :=
  match func with
  | Some external => external
  | None =>
      match files !! outputFilePath cwd jobName with
      | Some results => for_each assert_record results
      | None =>
          Raise (AssertionError
                   (missing_results_message (outputFilePath cwd jobName)))
      end
  end.

End Comparator.

(** ** Strings *)

Definition LF : ascii := ascii_of_nat 10.
Definition CR : ascii := ascii_of_nat 13.

(** [tok in s]: [tok] occurs in [s] as a contiguous substring. *)
Fixpoint is_substring (tok s : string) : bool :=
  String.prefix tok s ||
  match s with
  | EmptyString => false
  | String _ s' => is_substring tok s'
  end.

(** The part of [s] before its first line feed. *)
Fixpoint first_line (s : string) : string :=
  match s with
  | EmptyString => EmptyString
  | String c s' => if Ascii.eqb c LF then EmptyString else String c (first_line s')
  end.

(** ** Run-time instrumentation: [_measureRunTimes] *)

Module Timer.

Inductive phase : Type := Compile | Packager | Solver.

Inductive marker : Type := Begin (ph : phase) | End (ph : phase).

#[global] Instance phase_eq_dec : EqDecision phase.
Proof. solve_decision. Defined.

#[global] Instance marker_eq_dec : EqDecision marker.
Proof. solve_decision. Defined.

(** The attributes of a [_measureRunTimes] object.  [None] is Python's
    [None]; the three durations are attributes that exist only once the
    phase has been closed. *)
Record state : Type := {
  Compile_start : option Q;
  Compile_end : option Q;
  packager_start : option Q;
  packager_end : option Q;
  solver_start : option Q;
  solver_end : option Q;
  compile_time : option Q;
  package_time : option Q;
  solver_time : option Q
}.

(** [__init__] *)
Definition init : state :=
  {| Compile_start := None; Compile_end := None;
     packager_start := None; packager_end := None;
     solver_start := None; solver_end := None;
     compile_time := None; package_time := None; solver_time := None |}.

(** [re.match(pattern, line)] for a pattern without operators: the line
    starts with the pattern. *)
Definition re_match_literal (pattern line : string) : bool :=
  String.prefix pattern line.

(** [re.match('.*' + text + '.*', line)]: [.] does not match a line feed,
    so [text] has to occur before the first one. *)
Definition re_match_anywhere (text line : string) : bool :=
  is_substring text (first_line line).

(** The [if]/[elif] chain of [processLine]: which branch a line takes. *)
Definition marker_of (line : string) : option marker :=
  if re_match_literal "Begin Linking" line then Some (Begin Compile)
  else if re_match_literal "End Linking" line then Some (End Compile)
  else if re_match_literal "Begin Abaqus/Explicit Packager" line then Some (Begin Packager)
  else if re_match_literal "End Abaqus/Explicit Packager" line then Some (End Packager)
  else if re_match_literal "Begin Abaqus/Explicit Analysis" line then Some (Begin Solver)
  else if re_match_literal "End Abaqus/Explicit Analysis" line
          || re_match_anywhere "Abaqus/Explicit Analysis exited with an error" line
       then Some (End Solver)
  else None.

(** [end - start], where [start] may still be [None]. *)
Definition elapsed (end_ : Q) (start : option Q) : res Q :=
  match start with
  | Some s => Ok (end_ - s)%Q
  | None => Raise TypeError
  end.

(** What one call of [processLine] leaves behind: the object's attributes,
    the durations written to [sys.stderr] and the exception raised, if
    any. *)
Record effect : Type := {
  after : state;
  reports : list (phase * Q);
  raised : option exn
}.

Definition set_start (ph : phase) (now : Q) (st : state) : state :=
  match ph with
  | Compile =>
      {| Compile_start := Some now; Compile_end := Compile_end st;
         packager_start := packager_start st; packager_end := packager_end st;
         solver_start := solver_start st; solver_end := solver_end st;
         compile_time := compile_time st; package_time := package_time st;
         solver_time := solver_time st |}
  | Packager =>
      {| Compile_start := Compile_start st; Compile_end := Compile_end st;
         packager_start := Some now; packager_end := packager_end st;
         solver_start := solver_start st; solver_end := solver_end st;
         compile_time := compile_time st; package_time := package_time st;
         solver_time := solver_time st |}
  | Solver =>
      {| Compile_start := Compile_start st; Compile_end := Compile_end st;
         packager_start := packager_start st; packager_end := packager_end st;
         solver_start := Some now; solver_end := solver_end st;
         compile_time := compile_time st; package_time := package_time st;
         solver_time := solver_time st |}
  end.

Definition set_end (ph : phase) (now : Q) (st : state) : state :=
  match ph with
  | Compile =>
      {| Compile_start := Compile_start st; Compile_end := Some now;
         packager_start := packager_start st; packager_end := packager_end st;
         solver_start := solver_start st; solver_end := solver_end st;
         compile_time := compile_time st; package_time := package_time st;
         solver_time := solver_time st |}
  | Packager =>
      {| Compile_start := Compile_start st; Compile_end := Compile_end st;
         packager_start := packager_start st; packager_end := Some now;
         solver_start := solver_start st; solver_end := solver_end st;
         compile_time := compile_time st; package_time := package_time st;
         solver_time := solver_time st |}
  | Solver =>
      {| Compile_start := Compile_start st; Compile_end := Compile_end st;
         packager_start := packager_start st; packager_end := packager_end st;
         solver_start := solver_start st; solver_end := Some now;
         compile_time := compile_time st; package_time := package_time st;
         solver_time := solver_time st |}
  end.

Definition set_time (ph : phase) (d : Q) (st : state) : state :=
  match ph with
  | Compile =>
      {| Compile_start := Compile_start st; Compile_end := Compile_end st;
         packager_start := packager_start st; packager_end := packager_end st;
         solver_start := solver_start st; solver_end := solver_end st;
         compile_time := Some d; package_time := package_time st;
         solver_time := solver_time st |}
  | Packager =>
      {| Compile_start := Compile_start st; Compile_end := Compile_end st;
         packager_start := packager_start st; packager_end := packager_end st;
         solver_start := solver_start st; solver_end := solver_end st;
         compile_time := compile_time st; package_time := Some d;
         solver_time := solver_time st |}
  | Solver =>
      {| Compile_start := Compile_start st; Compile_end := Compile_end st;
         packager_start := packager_start st; packager_end := packager_end st;
         solver_start := solver_start st; solver_end := solver_end st;
         compile_time := compile_time st; package_time := package_time st;
         solver_time := Some d |}
  end.

Definition start_of (ph : phase) (st : state) : option Q :=
  match ph with
  | Compile => Compile_start st
  | Packager => packager_start st
  | Solver => solver_start st
  end.

(** [processLine(line)], with [now] the value [time.time()] returns during
    the call.  A begin marker stores the start.  An end marker stores the
    end, subtracts the start from it, stores the duration and writes it to
    [sys.stderr]; the subtraction raises when the start is [None], after
    the end has been stored and before anything is written. *)
Definition processLine (st : state) (line : string) (now : Q) : effect :=
  match marker_of line with
  | Some (Begin ph) =>
      {| after := set_start ph now st; reports := []; raised := None |}
  | Some (End ph) =>
      let st1 := set_end ph now st in
      match elapsed now (start_of ph st1) with
      | Ok d => {| after := set_time ph d st1; reports := [(ph, d)]; raised := None |}
      | Raise e => {| after := st1; reports := []; raised := Some e |}
      end
  | None => {| after := st; reports := []; raised := None |}
  end.

(** The loop of [_callAbaqus] as far as the timer is concerned: each line
    of the stream, paired with the clock reading at the time it is
    processed, goes through [processLine]; an exception leaves the loop. *)
Fixpoint feed (st : state) (stream : list (string * Q)) : effect :=
  match stream with
  | [] => {| after := st; reports := []; raised := None |}
  | (line, now) :: stream' =>
      let e := processLine st line now in
      match raised e with
      | Some _ => e
      | None =>
          let e' := feed (after e) stream' in
          {| after := after e'; reports := reports e ++ reports e';
             raised := raised e' |}
      end
  end.

(** No line of [stream] takes the branch that starts phase [ph]. *)
Definition no_start (ph : phase) (stream : list (string * Q)) : bool :=
  forallb (fun lt => negb (bool_decide (marker_of (fst lt) = Some (Begin ph)))) stream.

(** No line of [stream] is a marker. *)
Definition quiet (stream : list (string * Q)) : bool :=
  forallb (fun lt => bool_decide (marker_of (fst lt) = None)) stream.

(** The patterns of the five branches that come before the one for the end
    of the solver. *)
Definition earlier_patterns : list string :=
  ["Begin Linking"; "End Linking"; "Begin Abaqus/Explicit Packager";
   "End Abaqus/Explicit Packager"; "Begin Abaqus/Explicit Analysis"].

End Timer.

(** ** The line streamer: [_outputStreamer] *)

Module Streamer.

(** [newlines = ['\n', '\r\n', '\r']] *)
Definition newlines : list string :=
  [String LF EmptyString; String CR (String LF EmptyString); String CR EmptyString].

(** [last in newlines] *)
Definition in_newlines (last : string) : bool :=
  existsb (String.eqb last) newlines.

(** [stream.read(1)]: a string of one character and the rest of the
    stream, or the empty string at the end of the stream. *)
Definition read1 (s : string) : string * string :=
  match s with
  | EmptyString => (EmptyString, EmptyString)
  | String c s' => (String c EmptyString, s')
  end.

(** [proc.poll() is not None].  A process that exits is seen to have
    exited from some call of [poll] on, and by every call after it:
    [pending] is the number of calls still to come that find the process
    running, and [None] stands for a process that is never seen to exit.
    The result is the answer and what is pending after the call. *)
Definition poll (pending : option nat) : bool * option nat :=
  match pending with
  | Some O => (true, Some O)
  | Some (S n) => (false, Some n)
  | None => (false, None)
  end.

(** [last == '' and proc.poll() is not None]: [poll] is called only when
    [last] is the empty string. *)
Definition at_end (last : string) (pending : option nat) : bool * option nat :=
  if String.eqb last EmptyString then poll pending else (false, pending).

(** The inner [while last not in newlines] loop.  [out] is the line read so
    far.  The result is the line, the rest of the stream and what is
    pending; [None] when the fuel runs out, which stands for a loop that
    does not end. *)
Fixpoint read_line (fuel : nat) (pending : option nat) (out last s : string)
    : option (string * string * option nat) :=
  match fuel with
  | O => None
  | S fuel' =>
      if in_newlines last then Some (out, s, pending)
      else
        let '(exited, pending') := at_end last pending in
        if exited then Some (out, s, pending')
        else
          let '(last', s') := read1 s in
          read_line fuel' pending' (out +:+ last) last' s'
  end.

(** The generator, by the list of the lines it yields. *)
Fixpoint outputStreamer (fuel : nat) (pending : option nat) (s : string)
    : option (list string) :=
  match fuel with
  | O => None
  | S fuel' =>
      let '(last, s1) := read1 s in
      let '(exited, pending1) := at_end last pending in
      if exited then Some []
      else
        match read_line fuel' pending1 EmptyString last s1 with
        | None => None
        | Some (out, s2, pending2) =>
            option_map (cons out) (outputStreamer fuel' pending2 s2)
        end
  end.

(** [universal_newlines=True] in [_callAbaqus]: the pipe is opened in
    universal-newlines mode, in which the file object hands each of
    ['\n'], ['\r\n'] and ['\r'] to the program as ['\n']. *)
Fixpoint universal_newlines (raw : string) : string :=
  match raw with
  | EmptyString => EmptyString
  | String c raw' =>
      if Ascii.eqb c CR then
        match raw' with
        | String c' raw'' =>
            if Ascii.eqb c' LF then String LF (universal_newlines raw'')
            else String LF (universal_newlines raw')
        | EmptyString => String LF EmptyString
        end
      else String c (universal_newlines raw')
  end.

(** Puts [c] in front of the first line of [ls]. *)
Definition cons_char (c : ascii) (ls : list string) : list string :=
  match ls with
  | [] => [String c EmptyString]
  | l :: ls' => String c l :: ls'
  end.

Definition is_newline (c : ascii) : bool :=
  Ascii.eqb c LF || Ascii.eqb c CR.

(** The lines of [s] when every single line feed and every single carriage
    return ends a line; a last line without delimiter counts. *)
Fixpoint split_chars (s : string) : list string :=
  match s with
  | EmptyString => []
  | String c s' =>
      if is_newline c then EmptyString :: split_chars s'
      else cons_char c (split_chars s')
  end.

(** The lines of a stream as the specification describes them: each of
    ['\n'], ['\r\n'] and ['\r'] is one delimiter and is stripped; a last
    line without delimiter counts. *)
Fixpoint spec_lines (raw : string) : list string :=
  match raw with
  | EmptyString => []
  | String c raw' =>
      if Ascii.eqb c LF then EmptyString :: spec_lines raw'
      else if Ascii.eqb c CR then
        match raw' with
        | String c' raw'' =>
            if Ascii.eqb c' LF then EmptyString :: spec_lines raw''
            else EmptyString :: spec_lines raw'
        | EmptyString => [EmptyString]
        end
      else cons_char c (spec_lines raw')
  end.

(** The characters of [s] before its first delimiter, and what follows
    that delimiter. *)
Fixpoint first_seg (s : string) : string :=
  match s with
  | EmptyString => EmptyString
  | String c s' => if is_newline c then EmptyString else String c (first_seg s')
  end.

Fixpoint after_seg (s : string) : string :=
  match s with
  | EmptyString => EmptyString
  | String c s' => if is_newline c then s' else after_seg s'
  end.

(** [s] has a delimiter. *)
Fixpoint has_newline (s : string) : bool :=
  match s with
  | EmptyString => false
  | String c s' => is_newline c || has_newline s'
  end.

(** [s] ends between two lines: it is empty or its last character is a
    delimiter. *)
Fixpoint ends_line (s : string) : bool :=
  match s with
  | EmptyString => true
  | String c EmptyString => is_newline c
  | String _ s' => ends_line s'
  end.

(** [s] has a carriage return directly followed by a line feed. *)
Fixpoint has_crlf (s : string) : bool :=
  match s with
  | EmptyString => false
  | String c s' =>
      (Ascii.eqb c CR
       && match s' with
          | String c' _ => Ascii.eqb c' LF
          | EmptyString => false
          end)
      || has_crlf s'
  end.

(** The empty line that is yielded last when the stream ends between two
    lines while the process is not yet seen to have exited. *)
Definition trailing (pending : nat) (s : string) : list string :=
  if ends_line s && negb (Nat.eqb pending 0) then [EmptyString] else [].

End Streamer.

(** ** The parametric test generator: [ParametricMetaClass.__new__] *)

Module Parametric.

(** Parameter values: integers and strings. *)
Inductive pvalue : Type :=
| PInt (z : Z)
| PStr (s : string).

(** [str(value)] *)
Definition str (v : pvalue) : string :=
  match v with
  | PInt z => NilZero.string_of_int (Z.to_int z)
  | PStr s => s
  end.

(** *** The test matrix and the test names (lines 686-708) *)

(** [it.product] of the domains: the leftmost domain varies slowest. *)
Fixpoint product {A : Type} (domains : list (list A)) : list (list A) :=
  match domains with
  | [] => [[]]
  | d :: ds => flat_map (fun v => map (cons v) (product ds)) d
  end.

(** [parameters] is a dict from names to domains; it is kept here as the
    list of its items in the order in which the dict is iterated, and each
    test case, a dict too, as the list of its items in that same order.

    Line 686 zips the names with each element of the product of the
    domains. *)
Definition testCases (parameters : list (string * list pvalue))
    : list (list (string * pvalue)) :=
  map (combine (map fst parameters)) (product (map snd parameters)).

(** [re.sub('[.]', '', pn)] *)
Fixpoint remove_periods (s : string) : string :=
  match s with
  | EmptyString => EmptyString
  | String c s' =>
      if Ascii.eqb c "." then remove_periods s' else String c (remove_periods s')
  end.

(** ['%s_%s' % (key, value)] *)
Definition token (kv : string * pvalue) : string :=
  fst kv +:+ "_" +:+ str (snd kv).

(** The name given to a test case (lines 693-697). *)
Definition test_name (baseName : string) (testCase : list (string * pvalue)) : string :=
  let pn := String.concat "_" (map token testCase) in
  let pn := remove_periods pn in
  baseName +:+ "_" +:+ pn.

(** The names given to the test cases at line 697, in the order of the
    test cases. *)
Definition test_names (baseName : string) (parameters : list (string * list pvalue))
    : list string :=
  map (test_name baseName) (testCases parameters).

(** The test methods of the class.  Line 708 stores the function made for
    each test case in the dict of the class under the name of the test case,
    so that of two test cases of one name the later takes the place of the
    earlier.  A method is kept here by the test case it runs. *)
Definition methods (baseName : string) (parameters : list (string * list pvalue))
    : gmap string (list (string * pvalue)) :=
  fold_left (fun dct tc => <[test_name baseName tc := tc]> dct)
            (testCases parameters) ∅.

(** The size of the matrix: the product of the sizes of the domains. *)
Definition matrix_size (parameters : list (string * list pvalue)) : nat :=
  fold_right (fun kd n => length (snd kd) * n) 1 parameters.

(** [c in s] for a character [c]. *)
Fixpoint has_char (c : ascii) (s : string) : bool :=
  match s with
  | EmptyString => false
  | String x s' => Ascii.eqb x c || has_char c s'
  end.

(** A value as it shows in a test name. *)
Definition rendered (v : pvalue) : string := remove_periods (str v).

(** No two strings of [l] are equal. *)
Fixpoint distinct (l : list string) : bool :=
  match l with
  | [] => true
  | x :: l' => negb (existsb (String.eqb x) l') && distinct l'
  end.

(** No parameter and no value has a period in its text. *)
Definition period_free (parameters : list (string * list pvalue)) : bool :=
  forallb (fun kd =>
             negb (has_char "." (fst kd))
             && forallb (fun v => negb (has_char "." (str v))) (snd kd))
          parameters.

(** The condition under which the names of the matrix are told apart: in
    each domain the values still differ once rendered, and no value has an
    underscore. *)
Definition distinguishable (parameters : list (string * list pvalue)) : bool :=
  forallb (fun kd =>
             distinct (map rendered (snd kd))
             && forallb (fun v => negb (has_char "_" (str v))) (snd kd))
          parameters.

(** *** Substitution of a parameter in a template (lines 586-609) *)

(** The characters that are operators in a regular expression.  The program
    places the parameter name in the pattern as it is; the functions below
    give the meaning of the pattern for a name without such characters. *)
Definition is_meta (c : ascii) : bool :=
  existsb (Ascii.eqb c)
    ["."; "^"; "$"; "*"; "+"; "?"; "{"; "}"; "["; "]"; "\"; "|"; "("; ")"]%char.

Fixpoint regex_literal (p : string) : bool :=
  match p with
  | EmptyString => true
  | String c p' => negb (is_meta c) && regex_literal p'
  end.

(** [s] without the prefix [p], when it has that prefix. *)
Fixpoint strip_prefix (p s : string) : option string :=
  match p, s with
  | EmptyString, _ => Some s
  | String a p', String b s' => if Ascii.eqb a b then strip_prefix p' s' else None
  | String _ _, EmptyString => None
  end.

(** [.{0,}$] matches all of [s]: [.] is any character but a line feed, and
    [$] is the end of the string or the place before a last line feed. *)
Fixpoint match_tail (s : string) : bool :=
  match s with
  | EmptyString => true
  | String c s' => if Ascii.eqb c LF then String.eqb s' EmptyString else match_tail s'
  end.

(** [.{0,}=.{0,}$] matches all of [s]. *)
Fixpoint match_eq_tail (s : string) : bool :=
  match s with
  | EmptyString => false
  | String c s' =>
      (Ascii.eqb c "=" && match_tail s') || (negb (Ascii.eqb c LF) && match_eq_tail s')
  end.

(** [re.search('.{0,}' + p + '.{0,}=.{0,}$', line) is not None] for a
    literal [p]: at some place of the line, [p] is followed by the rest of
    the pattern. *)
Fixpoint line_matches (p line : string) : bool :=
  match strip_prefix p line with
  | Some rest => match_eq_tail rest
  | None => false
  end
  || match line with
     | EmptyString => false
     | String _ line' => line_matches p line'
     end.

(** [line.split('=')[0]] *)
Fixpoint before_eq (line : string) : string :=
  match line with
  | EmptyString => EmptyString
  | String c line' => if Ascii.eqb c "=" then EmptyString else String c (before_eq line')
  end.

(** What follows the first [=] of [line]. *)
Fixpoint after_eq (line : string) : string :=
  match line with
  | EmptyString => EmptyString
  | String c line' => if Ascii.eqb c "=" then line' else after_eq line'
  end.

(** [s] has no line feed. *)
Fixpoint no_LF (s : string) : bool :=
  match s with
  | EmptyString => true
  | String c s' => negb (Ascii.eqb c LF) && no_LF s'
  end.

(** [data[line].split('=')[0] + '= ' + str(parameters[p]) + '\n'] *)
Definition rewritten (line value : string) : string :=
  before_eq line +:+ "= " +:+ value +:+ String LF EmptyString.

(** [for line in range(len(data))] with the assignment to [data[line]] and
    the [break]; [indices] is what is left of the range. *)
Fixpoint scan (p value : string) (data : list string) (indices : list nat)
    : list string :=
  match indices with
  | [] => data
  | line :: indices' =>
      match data !! line with
      | Some text =>
          if line_matches p text then <[line := rewritten text value]> data
          else scan p value data indices'
      | None => data
      end
  end.

Definition substitute (p value : string) (data : list string) : list string :=
  scan p value data (seq 0 (length data)).

(** [for p in parameters.keys(): ...] over the items of the test case. *)
Definition substitute_all (parameters : list (string * pvalue)) (data : list string)
    : list string :=
  fold_left (fun d kv => substitute (fst kv) (str (snd kv)) d) parameters data.

(** The index of the first line the pattern for [p] matches. *)
Fixpoint first_match (p : string) (data : list string) : option nat :=
  match data with
  | [] => None
  | text :: data' =>
      if line_matches p text then Some 0 else option_map S (first_match p data')
  end.

(** *** The generated test function and its clean-up (lines 570-672) *)

Record testCase : Type := {
  name : string;
  baseName : string;
  pythonScriptForModel : bool
}.

(** The files of the working directory, by their names. *)
Abbreviation files := (gset string).

(** What lies outside the program: whether the model script, run by
    Abaqus, writes the input deck, and how the run and the assertions on
    its results end once the input deck has been staged. *)
Record world : Type := {
  script_writes_inp : bool;
  verdict : res unit
}.

(** [shutil.copyfile(src, dst)] *)
Definition copyfile (src dst : string) (fs : files) : files * res unit :=
  if decide (src ∈ fs) then ({[dst]} ∪ fs, Ok tt) else (fs, Raise (IOError src)).

(** [os.remove(path)] *)
Definition os_remove (path : string) (fs : files) : files * res unit :=
  if decide (path ∈ fs) then (fs ∖ {[path]}, Ok tt) else (fs, Raise (OSError path)).

(** Sequencing of steps that change the files and may raise. *)
Definition and_then (step next : files -> files * res unit) (fs : files)
    : files * res unit :=
  match step fs with
  | (fs', Ok _) => next fs'
  | (fs', Raise e) => (fs', Raise e)
  end.

Definition skip (fs : files) : files * res unit := (fs, Ok tt).

(** The [try] block, for a run on the local host that does not reuse
    existing results: the template is copied to the job's input (the model
    script when there is one, the input deck otherwise), the expected
    results file is copied, the model script is run, [_runModel] copies the
    input deck to [testOutput], and the solver, the post-processing and the
    assertions follow.  Rewriting a file in place does not change the set
    of files. *)
Definition try_block (w : world) (tc : testCase) : files -> files * res unit :=
  let jobName := name tc in
  let ext := if pythonScriptForModel tc then ".py" else ".inp" in
  and_then (copyfile (baseName tc +:+ ext) (jobName +:+ ext))
 (and_then (copyfile (baseName tc +:+ "_expected.py") (jobName +:+ "_expected.py"))
 (and_then (fun fs => ({["testOutput/" +:+ jobName +:+ ".log"]} ∪ fs, Ok tt))
 (and_then (fun fs =>
              if pythonScriptForModel tc && script_writes_inp w
              then ({[jobName +:+ ".inp"]} ∪ fs, Ok tt) else (fs, Ok tt))
 (and_then (copyfile (jobName +:+ ".inp") ("testOutput/" +:+ jobName +:+ ".inp"))
           (fun fs => (fs, verdict w)))))).

(** The [finally] block (lines 668-672). *)
Definition finally_block (tc : testCase) : files -> files * res unit :=
  let jobName := name tc in
  and_then (os_remove (jobName +:+ ".inp"))
 (and_then (os_remove (jobName +:+ "_expected.py"))
           (if pythonScriptForModel tc then os_remove (jobName +:+ ".py") else skip)).

(** [try: ... finally: ...]: the [finally] block always runs; an exception
    it raises takes the place of the one that was pending. *)
Definition test (w : world) (tc : testCase) (fs : files) : files * res unit :=
  let '(fs1, r1) := try_block w tc fs in
  let '(fs2, r2) := finally_block tc fs1 in
  (fs2, match r2 with Ok _ => r1 | Raise e => Raise e end).

End Parametric.

(** ** The per-job expiration: [TestCase.runTest], lines 333-342 *)

Module Expiration.

(** The global [options] object, by the attributes the tests read. *)
Record options : Type := {
  interactive : bool;
  time : bool;
  precompileCode : bool;
  useExistingResults : bool;
  abaqusCmd : string;
  cpus : Z;
  host : string;
  verbose : bool;
  double : bool;
  doNotSave : bool;
  expiration : pyval
}.

(** [options.expiration = e] *)
Definition set_expiration (e : pyval) (o : options) : options :=
  {| interactive := interactive o; time := time o;
     precompileCode := precompileCode o;
     useExistingResults := useExistingResults o;
     abaqusCmd := abaqusCmd o; cpus := cpus o; host := host o;
     verbose := verbose o; double := double o; doNotSave := doNotSave o;
     expiration := e |}.

(** [v < 0] in Python 2: [None] is smaller than every number, and every
    number is smaller than a string, a list or a tuple. *)
Definition lt_zero (v : pyval) : bool :=
  match v with
  | VNone => true
  | VNum x => Number.ltb x (Int 0)
  | VStr _ | VList _ | VTuple _ => false
  end.

(** Lines 334-338, with [para] the [parameters] dict of the job's expected
    results file:
    [if "expiration" in para: options.expiration = para["expiration"]]
    [if options.expiration < 0: options.expiration = None] *)
Definition check_expiration (para : gmap string pyval) (o : options) : options :=
  let o1 := match para !! "expiration" with
            | Some e => set_expiration e o
            | None => o
            end in
  if lt_zero (expiration o1) then set_expiration VNone o1 else o1.

(** One call of [runTest] as far as [options] goes: the options it leaves
    behind and the [expiration] argument it passes to [_runModel]. *)
Definition runTest (para : gmap string pyval) (o : options) : options * pyval :=
  let o' := check_expiration para o in
  (o', expiration o').

(** The jobs of one invocation of the harness, run one after the other on
    the same [options]; the result lists the expiration each job ran
    with. *)
Fixpoint run_jobs (jobs : list (gmap string pyval)) (o : options) : list pyval :=
  match jobs with
  | [] => []
  | para :: jobs' =>
      let '(o', e) := runTest para o in
      e :: run_jobs jobs' o'
  end.

(** The defaults of the command line options (lines 751-764). *)
Definition default_options : options :=
  {| interactive := false; time := false; precompileCode := false;
     useExistingResults := false; abaqusCmd := "abaqus"; cpus := 1;
     host := "localhost"; verbose := false; double := false;
     doNotSave := false; expiration := VNum (-1) |}.

End Expiration.

(** ** The call of the solver: [_callAbaqus] *)

Module CallAbaqus.

(** What a call leaves behind: the text of the log file, the lines printed
    to the console, the timer, the durations the timer wrote to
    [sys.stderr], and the exception that ended the loop, if any. *)
Record effect : Type := {
  log : string;
  console : list string;
  timer : option Timer.state;
  durations : list (Timer.phase * Q);
  raised : option exn
}.

(** The loop of lines 143-153 over the lines the streamer yields, each with
    the reading of the clock at the time it is processed.  [time] and
    [interactive] are the two options of those names; [timer] is [None] for
    Python's [None]. *)
Fixpoint write_lines (time interactive : bool) (timer : option Timer.state)
    (lines : list (string * Q)) (log : string) : effect :=
  match lines with
  | [] =>
      {| log := log; console := []; timer := timer; durations := [];
         raised := None |}
  | (line, now) :: lines' =>
      let processed :=
        if time then
          match timer with
          | Some st => Some (Timer.processLine st line now)
          | None => None
          end
        else None in
      let go timer' written :=
        let e := write_lines time interactive timer' lines'
                   (log +:+ line +:+ String LF EmptyString) in
        {| log := CallAbaqus.log e;
           console := if interactive then line :: console e else console e;
           timer := CallAbaqus.timer e;
           durations := written ++ durations e;
           raised := CallAbaqus.raised e |} in
      match processed with
      | Some p =>
          match Timer.raised p with
          | Some ex =>
              {| log := log; console := []; timer := Some (Timer.after p);
                 durations := Timer.reports p; raised := Some ex |}
          | None => go (Some (Timer.after p)) (Timer.reports p)
          end
      | None => go timer []
      end
  end.

(** [_callAbaqus]: the output [raw] of the process that the call starts
    goes through the pipe in universal-newlines mode and through the
    streamer into the loop.  The process exits, and is seen to have exited
    after [pending] calls of [poll] that find it running; [clock i] is the
    reading of the clock at the line of index [i]. *)
Definition callAbaqus (fuel : nat) (pending : nat) (time interactive : bool)
    (timer : option Timer.state) (raw : string) (clock : nat -> Q)
    (log : string) : option effect :=
  match Streamer.outputStreamer fuel (Some pending)
          (Streamer.universal_newlines raw) with
  | Some lines =>
      Some (write_lines time interactive timer
              (imap (fun i line => (line, clock i)) lines) log)
  | None => None
  end.

(** [s] with a line feed put at its end, unless [s] is empty or ends with a
    line feed. *)
Fixpoint with_final_LF (s : string) : string :=
  match s with
  | EmptyString => EmptyString
  | String c EmptyString =>
      if Ascii.eqb c LF then s else String c (String LF EmptyString)
  | String c s' => String c (with_final_LF s')
  end.

End CallAbaqus.

(** ** The run of the solver: [TestCase._runModel], lines 438-461 *)

Module RunModel.
Import Expiration.

(** [if v:] *)
Definition truthy (v : pyval) : bool :=
  match v with
  | VNone => false
  | VNum x => negb (Number.eqb x (Int 0))
  | VStr s => negb (String.eqb s EmptyString)
  | VList l | VTuple l =>
      match l with
      | [] => false
      | _ :: _ => true
      end
  end.

(** What the block does to the world outside, in order. *)
Inductive action : Type :=
| Chdir (dir : string)
| TimerStart (seconds : pyval) (jobName : string)
| CallAbaqus (cmd : string)
| TimerCancel
| CallAbaqusOnRemote (cmd : string).

(** Lines 450-461: on the local host the solver runs from [testOutput],
    after the start of a [threading.Timer] when [expiration] is true; on a
    remote host it is just called.  [outcome] is how the call of the solver
    ends: it returns or it raises.  The statements after the call, the
    cancellation of the timer and the return to the parent directory, are
    plain statements with no [try] around the call, so they are reached only
    when the call returns.  The result is what was done and how the block
    ends. *)
Definition run_block (o : options) (jobName cmd : string) (expiration : pyval)
    (outcome : res unit) : list action * res unit :=
  if String.eqb (host o) "localhost" then
    let before :=
      ([Chdir "testOutput"]
         ++ (if truthy expiration then [TimerStart expiration jobName] else [])
         ++ [CallAbaqus cmd])%list in
    match outcome with
    | Ok _ =>
        ((before
            ++ (if truthy expiration then [TimerCancel] else [])
            ++ [Chdir ".."])%list,
         Ok tt)
    | Raise e => (before, Raise e)
    end
  else ([CallAbaqusOnRemote cmd], outcome).

End RunModel.

(** ** The remote host: [runTests], lines 769-916 *)

Module RemoteHost.

(** The characters of [[A-Za-z0-9\-\.]]. *)
Definition is_host_char (c : ascii) : bool :=
  let n := nat_of_ascii c in
  (Nat.leb 65 n && Nat.leb n 90) || (Nat.leb 97 n && Nat.leb n 122)
  || (Nat.leb 48 n && Nat.leb n 57) || Ascii.eqb c "-" || Ascii.eqb c ".".

(** The characters of [[0-9]]. *)
Definition is_digit (c : ascii) : bool :=
  let n := nat_of_ascii c in Nat.leb 48 n && Nat.leb n 57.

(** The longest prefix of [s] made of characters of a class, and what
    follows it. *)
Fixpoint span (f : ascii -> bool) (s : string) : string * string :=
  match s with
  | EmptyString => (EmptyString, EmptyString)
  | String c s' =>
      if f c then let '(a, r) := span f s' in (String c a, r)
      else (EmptyString, s)
  end.

Fixpoint all_chars (f : ascii -> bool) (s : string) : bool :=
  match s with
  | EmptyString => true
  | String c s' => f c && all_chars f s'
  end.

(** [s] starts with a character of the class. *)
Definition starts_with (f : ascii -> bool) (s : string) : bool :=
  match s with
  | EmptyString => false
  | String c _ => f c
  end.

(** [s] without the line feed at its end, if it has one. *)
Fixpoint drop_final_LF (s : string) : string :=
  match s with
  | EmptyString => EmptyString
  | String c EmptyString => if Ascii.eqb c LF then EmptyString else s
  | String c s' => String c (drop_final_LF s')
  end.

(** The four groups of a match. *)
Record groups : Type := {
  userName : string;
  fqdn : string;
  port : option string;
  runDir : string
}.

(** The search of line 902: from the start of [host], a group of one or
    more class characters, an [@], a second such group, an optional colon,
    an optional group of digits, and a last group of any characters up to
    the end.  The first group is the longest run of class characters, since the [@]
    that has to follow is not of the class; so is the second, since the
    rest of the pattern accepts whatever follows on the line; the colon and
    the digits are taken when they are there; and the last group is the
    rest, which may hold no line feed but one at the very end. *)
Definition match_host (host : string) : option groups :=
  let '(u, r1) := span is_host_char host in
  if String.eqb u EmptyString then None
  else
    match r1 with
    | String c r2 =>
        if Ascii.eqb c "@" then
          let '(h, r3) := span is_host_char r2 in
          if String.eqb h EmptyString then None
          else
            let r4 := match r3 with
                      | String c' r => if Ascii.eqb c' ":" then r else r3
                      | EmptyString => r3
                      end in
            let '(digits, r5) := span is_digit r4 in
            if Parametric.match_tail r5 then
              Some {| userName := u; fqdn := h;
                      port := if String.eqb digits EmptyString then None
                              else Some digits;
                      runDir := drop_final_LF r5 |}
            else None
        else None
    | EmptyString => None
    end.

(** What lines 903-916 settle: the user, the host, the port (the text of
    the third group, or the number 22) and the run directory. *)
Record target : Type := {
  target_user : string;
  target_host : string;
  target_port : pyval;
  remote_run_directory : string
}.

(** Lines 886-887 and 901-916, which are inside the branch for a host that
    is not [localhost]: see [configure] below.  [configured] is the
    [remote_run_directory] of the user's remote options, if they define
    one.  [None] stands for no match, the [else] of line 908. *)
Definition resolve_host (configured : option string) (host : string)
    : option target :=
  let default_directory :=
    match configured with
    | Some d => d
    | None => "abaverify_temp"
    end in
  match match_host host with
  | Some g =>
      Some {| target_user := userName g;
              target_host := fqdn g;
              target_port := match port g with
                             | Some p => VStr p
                             | None => VNum 22
                             end;
              remote_run_directory :=
                if String.eqb (runDir g) EmptyString then default_directory
                else runDir g |}
  | None => None
  end.

(** What [runTests] needs besides the options to set up a remote host: the
    two options that the record of options above leaves out, whether
    [platform.system()] is ["Windows"], and whether [paramiko] can be
    imported and its client made. *)
Record setting : Type := {
  useExistingBinaries : bool;
  keepExistingOutputFile : bool;
  windows : bool;
  paramiko : bool
}.

(** Lines 769-916.  The host [localhost] is run locally and nothing of the
    branch is done, which [Ok None] stands for.  For any other host the
    options are checked, then the platform and [paramiko], and then the
    host is matched against the pattern. *)
Definition configure (o : Expiration.options) (env : setting)
    (configured : option string) : res (option target) :=
  if negb (String.eqb (Expiration.host o) "localhost") then
    if Expiration.precompileCode o then
      Raise (Exception "The -c option is not supported with -R")
    else if useExistingBinaries env then
      Raise (Exception "The -e option is not supported with -R")
    else if Expiration.useExistingResults o then
      Raise (Exception "The -r option is not supported with -R")
    else if keepExistingOutputFile env then
      Raise (Exception "The -k option is not supported with -R")
    else if negb (windows env) then
      Raise (Exception "The -R option is only supported for Windows")
    else if negb (paramiko env) then
      Raise (Exception
               "Failed to load paramiko. The -R option requires Paramiko. Please make sure that paramiko is installed and configured")
    else
      match resolve_host configured (Expiration.host o) with
      | Some t => Ok (Some t)
      | None =>
          Raise (ValueError
                   ("Unable to understand the specified host "
                      +:+ Expiration.host o
                      +:+ "; please use proper formatting."))
      end
  else Ok None.

End RemoteHost.

(** ** The removal of temporary files: [TestCase.tearDown] *)

Module TearDown.

Inductive kind : Type := File | Directory.

(** [re.match('.*' + a + '.*' + b + '.*', s)] for literal [a] and [b] and a
    one-line [s]: somewhere [a], and after it [b]. *)
Fixpoint contains_then (a b s : string) : bool :=
  match Parametric.strip_prefix a s with
  | Some rest => is_substring b rest
  | None => false
  end
  || match s with
     | EmptyString => false
     | String _ s' => contains_then a b s'
     end.

(** [any(regex.match(f) for regex in patterns)] for the three patterns of
    line 292; [.] matches no line feed, so only the first line of the name
    counts. *)
Definition is_temporary (f : string) : bool :=
  let l := first_line f in
  contains_then "abaqus" ".rpy" l || contains_then "abaqus" ".rec" l
  || is_substring "pyc" l.

(** The list comprehension of line 294 inside its [try]: [os.remove] on
    each matching name of the listing, in order; [os.remove] raises on a
    directory and on a name that is not there, and the [except] clause
    ends the method. *)
Fixpoint remove_listed (listing : list string) (dir : gmap string kind)
    : gmap string kind :=
  match listing with
  | [] => dir
  | f :: listing' =>
      if is_temporary f then
        match dir !! f with
        | Some File => remove_listed listing' (delete f dir)
        | Some Directory | None => dir
        end
      else remove_listed listing' dir
  end.

(** [tearDown], on a working directory [dir] that [os.listdir] lists as
    [listing]. *)
Definition tearDown (listing : list string) (dir : gmap string kind)
    : gmap string kind :=
  remove_listed listing dir.

End TearDown.

(** * Verified properties *)

(** ** Strings *)

Lemma append_empty_l (s : string) : "" +:+ s = s.
Proof. reflexivity. Qed.

Lemma append_String (c : ascii) (a s : string) :
  String c a +:+ s = String c (a +:+ s).
Proof. reflexivity. Qed.

Lemma append_char (c : ascii) (s : string) : String c "" +:+ s = String c s.
Proof. reflexivity. Qed.

Lemma append_assoc (a b c : string) : (a +:+ b) +:+ c = a +:+ b +:+ c.
Proof.
  induction a as [|x a IH]; [reflexivity|].
  rewrite !append_String. by rewrite IH.
Qed.

Lemma prefix_String (a b : ascii) (t s : string) :
  String.prefix (String a t) (String b s) =
    if ascii_dec a b then String.prefix t s else false.
Proof. reflexivity. Qed.

Lemma prefix_app (t b : string) : String.prefix t (t +:+ b) = true.
Proof.
  induction t as [|a t IH].
  - rewrite append_empty_l. by destruct b.
  - rewrite append_String. simpl.
    destruct (ascii_dec a a); [exact IH | congruence].
Qed.

Lemma is_substring_unfold (t s : string) :
  is_substring t s =
    String.prefix t s ||
    match s with
    | EmptyString => false
    | String _ s' => is_substring t s'
    end.
Proof. destruct s; reflexivity. Qed.

Lemma is_substring_here (t s : string) :
  String.prefix t s = true -> is_substring t s = true.
Proof. intros H. rewrite is_substring_unfold, H. reflexivity. Qed.

Lemma is_substring_app (a t b : string) : is_substring t (a +:+ t +:+ b) = true.
Proof.
  induction a as [|c a IH].
  - rewrite append_empty_l. apply is_substring_here, prefix_app.
  - rewrite append_String, is_substring_unfold, IH. apply orb_true_r.
Qed.

(** ** The result comparator *)

Section ComparatorProperties.
Import Comparator.

Lemma has_key_Some (r : record) (key : string) (v : pyval) :
  r !! key = Some v -> has_key r key = true.
Proof. intros H. unfold has_key. apply bool_decide_eq_true. by exists v. Qed.

Lemma has_key_None (r : record) (key : string) :
  r !! key = None -> has_key r key = false.
Proof.
  intros H. unfold has_key. apply bool_decide_eq_false.
  rewrite H. by intros [v Hv].
Qed.

Lemma getitem_Some (r : record) (key : string) (v : pyval) :
  r !! key = Some v -> getitem r key = Ok v.
Proof. intros H. unfold getitem. by rewrite H. Qed.

Lemma getitem_None (r : record) (key : string) :
  r !! key = None -> getitem r key = Raise (KeyError key).
Proof. intros H. unfold getitem. by rewrite H. Qed.

(** Reads and membership tests of fields whose presence or absence is a
    hypothesis. *)
Ltac read_field :=
  match goal with
  | H : ?r !! ?k = Some ?v |- context [getitem ?r ?k] =>
      rewrite (getitem_Some r k v H)
  | H : ?r !! ?k = None |- context [getitem ?r ?k] =>
      rewrite (getitem_None r k H)
  | H : ?r !! ?k = Some ?v |- context [has_key ?r ?k] =>
      rewrite (has_key_Some r k v H)
  | H : ?r !! ?k = None |- context [has_key ?r ?k] =>
      rewrite (has_key_None r k H)
  end.

Ltac read_fields := repeat (read_field; cbn [bind]).

(** A scalar record with all three fields goes to [assertAlmostEqual]. *)
Lemma assert_record_scalar_tolerance (r : record) (cv rv tol : pyval) :
  r !! "computedValue" = Some cv -> has_iter cv = false ->
  r !! "referenceValue" = Some rv -> r !! "tolerance" = Some tol ->
  assert_record r = assertAlmostEqual cv rv tol.
Proof.
  intros Hc Hi Hr Ht. unfold assert_record.
  read_field. cbn [bind]. rewrite Hi. read_fields. reflexivity.
Qed.

(** [assertAlmostEqual] on numbers with a numeric [delta], when the
    difference of the two can be taken. *)
Lemma assertAlmostEqual_numbers (c rv t d : number) :
  Number.sub c rv = Ok d ->
  assertAlmostEqual (VNum c) (VNum rv) (VNum t) =
    if Number.eqb c rv || Number.leb (Number.abs d) t then Ok tt
    else Raise (AssertionError "not within delta").
Proof.
  intros Hd. unfold assertAlmostEqual. cbn [py_eq within_delta].
  destruct (Number.eqb c rv); cbn [orb]; [reflexivity|].
  rewrite Hd. cbn [bind].
  destruct (Number.leb (Number.abs d) t); reflexivity.
Qed.

Lemma assertAlmostEqual_numbers_Ok (c rv t d : number) :
  Number.sub c rv = Ok d ->
  assertAlmostEqual (VNum c) (VNum rv) (VNum t) = Ok tt <->
  Number.eqb c rv = true \/ Number.leb (Number.abs d) t = true.
Proof.
  intros Hd. rewrite (assertAlmostEqual_numbers c rv t d Hd).
  destruct (Number.eqb c rv), (Number.leb (Number.abs d) t); cbn [orb];
    intuition discriminate.
Qed.

(** Equal numbers are at most as large as each other. *)
Lemma Number_eqb_leb (x y : number) :
  Number.eqb x y = true -> Number.leb x y = true.
Proof.
  unfold Number.eqb, Number.leb.
  by destruct (Number.compare x y) as [[]|].
Qed.

(** On integers the comparisons are those of [Z]. *)
Lemma Number_eqb_Int (a b : Z) : Number.eqb (Int a) (Int b) = true <-> a = b.
Proof.
  unfold Number.eqb. cbn [Number.compare].
  destruct (Z.compare_spec a b); split; (done || lia).
Qed.

Lemma Number_leb_Int (a b : Z) :
  Number.leb (Int a) (Int b) = true <-> (a <= b)%Z.
Proof.
  unfold Number.leb. cbn [Number.compare].
  destruct (Z.compare_spec a b); split; (done || lia).
Qed.

(** The difference of two equal finite [float]s is a zero. *)
Lemma SFsub_equal (x y : spec_float) :
  Number.finite x = true -> Number.finite y = true -> SFeqb x y = true ->
  SFabs (SFsub Number.prec Number.emax x y) = S754_zero false.
Proof.
  unfold SFeqb.
  destruct x as [sx|sx| |sx mx ex], y as [sy|sy| |sy my ey];
    try discriminate; intros _ _ H.
  - by destruct sx, sy.
  - by destruct sy.
  - by destruct sx.
  - cbn [SFcompare] in H.
    assert (E : sx = sy /\ ex = ey /\ mx = my).
    { change (Pos.compare_cont Eq mx my) with (Pos.compare mx my) in H.
      destruct sx, sy; try discriminate;
        destruct (Z.compare_spec ex ey) as [->| |]; try discriminate;
        destruct (Pos.compare_spec mx my) as [->| |];
        try discriminate; done. }
    destruct E as (-> & -> & ->).
    assert (D : forall z, IntDef.Z.sub z z = 0%Z) by apply Z.sub_diag.
    cbn [SFsub]. rewrite Z.min_id. unfold shl_align.
    rewrite !D. reflexivity.
Qed.

(** C1, as the specification states it, fails in two ways.  The difference
    of two [float]s is rounded: with computed value [1e16], reference value
    [-1.0] and tolerance [1e16] the difference [1e16 + 1] is rounded to
    [1e16] and the record passes, although the difference of the values
    exceeds the tolerance by one.  And [assertAlmostEqual] returns at once
    for equal values: with computed value [0.0], reference value [0.0] and
    tolerance [-1.0] the record passes, although the difference 0 is not
    at most -1. *)
Lemma closeness_counterexample :
  (let c := Float (Number.of_int (10 ^ 16)) in
   let rv := Float (Number.of_int (-1)) in
   let t := Float (Number.of_int (10 ^ 16)) in
   let r : record :=
     {[ "computedValue" := VNum c; "referenceValue" := VNum rv;
        "tolerance" := VNum t ]} in
   exists vc vr vt,
     Number.value c = Some vc /\ Number.value rv = Some vr /\
     Number.value t = Some vt /\
     ~ (assert_record r = Ok tt <-> (Qabs (vc - vr) <= vt)%Q)) /\
  (let zero := Float (Number.of_int 0) in
   let t := Float (Number.of_int (-1)) in
   let r : record :=
     {[ "computedValue" := VNum zero; "referenceValue" := VNum zero;
        "tolerance" := VNum t ]} in
   exists vc vt,
     Number.value zero = Some vc /\ Number.value t = Some vt /\
     ~ (assert_record r = Ok tt <-> (Qabs (vc - vc) <= vt)%Q)).
Proof.
  split.
  - intros c rv t r. do 3 eexists.
    split; [reflexivity|]. split; [reflexivity|]. split; [reflexivity|].
    intros [H _].
    assert (P : assert_record r = Ok tt) by (vm_compute; reflexivity).
    specialize (H P). vm_compute in H. apply H. reflexivity.
  - intros zero t r. do 2 eexists.
    split; [reflexivity|]. split; [reflexivity|].
    intros [H _].
    assert (P : assert_record r = Ok tt) by (vm_compute; reflexivity).
    specialize (H P). vm_compute in H. apply H. reflexivity.
Qed.

(** C1 (amended): a scalar record with numeric computed value, reference
    value and tolerance passes exactly when the two values are equal or the
    absolute value of their difference, as Python computes it, is at most
    the tolerance, the boundary included; a record that does not pass fails
    with an assertion error.  On integers the difference is exact, so that
    for a tolerance that is not negative the record passes exactly when the
    absolute difference is at most the tolerance.  On [float]s the
    difference is the one rounded to the nearest [float]; for finite values
    and a tolerance that is not negative the record passes exactly when the
    absolute value of that rounded difference is at most the tolerance. *)
Theorem scalar_closeness (r : record) (c rv t : number) :
  r !! "computedValue" = Some (VNum c) ->
  r !! "referenceValue" = Some (VNum rv) ->
  r !! "tolerance" = Some (VNum t) ->
  (forall d,
      Number.sub c rv = Ok d ->
      (assert_record r = Ok tt <->
       Number.eqb c rv = true \/ Number.leb (Number.abs d) t = true) /\
      (Number.eqb (Number.abs d) t = true -> assert_record r = Ok tt) /\
      (assert_record r <> Ok tt ->
       exists msg, assert_record r = Raise (AssertionError msg))) /\
  (forall a b k,
      c = Int a -> rv = Int b -> t = Int k ->
      (assert_record r = Ok tt <-> (a = b \/ Z.abs (a - b) <= k)%Z) /\
      ((0 <= k)%Z -> (assert_record r = Ok tt <-> (Z.abs (a - b) <= k)%Z))) /\
  (forall x y z,
      c = Float x -> rv = Float y -> t = Float z ->
      (assert_record r = Ok tt <->
       SFeqb x y = true \/
       SFleb (SFabs (SFsub Number.prec Number.emax x y)) z = true) /\
      (Number.finite x = true -> Number.finite y = true ->
       SFleb (S754_zero false) z = true ->
       (assert_record r = Ok tt <->
        SFleb (SFabs (SFsub Number.prec Number.emax x y)) z = true))).
Proof.
  intros Hc Hr Ht.
  rewrite (assert_record_scalar_tolerance r _ _ _ Hc eq_refl Hr Ht).
  split; [|split].
  - intros d Hd. split; [by apply assertAlmostEqual_numbers_Ok|]. split.
    + intros E. apply (assertAlmostEqual_numbers_Ok c rv t d Hd).
      right. by apply Number_eqb_leb.
    + rewrite (assertAlmostEqual_numbers c rv t d Hd).
      destruct (Number.eqb c rv || Number.leb (Number.abs d) t);
        [congruence|]. by eexists.
  - intros a b k -> -> ->.
    rewrite (assertAlmostEqual_numbers_Ok (Int a) (Int b) (Int k)
               (Int (a - b)) eq_refl).
    cbn [Number.abs]. rewrite Number_eqb_Int, Number_leb_Int.
    split; [reflexivity|]. intros Hk. split; [|by right].
    intros [->|H]; [|exact H]. rewrite Z.sub_diag. exact Hk.
  - intros x y z -> -> ->.
    rewrite (assertAlmostEqual_numbers_Ok (Float x) (Float y) (Float z)
               (Float (SFsub Number.prec Number.emax x y)) eq_refl).
    split; [reflexivity|]. intros Fx Fy Hz. split; [|by right].
    intros [E|H]; [|exact H].
    change (SFleb (SFabs (SFsub Number.prec Number.emax x y)) z = true).
    by rewrite (SFsub_equal x y Fx Fy E).
Qed.

(** The scenario of the specification: reference 17100.0, tolerance 1.0,
    computed 17100.4. *)
Lemma scalar_closeness_witness :
  let c := Number.decimal 171004 1 in
  let rv := Number.decimal 171000 1 in
  let t := Number.decimal 10 1 in
  let r : record :=
    {[ "computedValue" := VNum (Float c); "referenceValue" := VNum (Float rv);
       "tolerance" := VNum (Float t) ]} in
  assert_record r = Ok tt <->
  SFleb (SFabs (SFsub Number.prec Number.emax c rv)) t = true.
Proof.
  intros c rv t r.
  assert (Hc : r !! "computedValue" = Some (VNum (Float c)))
    by (vm_compute; reflexivity).
  assert (Hr : r !! "referenceValue" = Some (VNum (Float rv)))
    by (vm_compute; reflexivity).
  assert (Ht : r !! "tolerance" = Some (VNum (Float t)))
    by (vm_compute; reflexivity).
  apply (proj2 (proj2 (scalar_closeness r (Float c) (Float rv) (Float t)
                         Hc Hr Ht)) c rv t eq_refl eq_refl eq_refl);
    reflexivity.
Defined.

Example scenario_pass :
  assert_record
    {[ "computedValue" := VNum (Float (Number.decimal 171004 1));
       "referenceValue" := VNum (Float (Number.decimal 171000 1));
       "tolerance" := VNum (Float (Number.decimal 10 1)) ]} = Ok tt.
Proof. vm_compute. reflexivity. Qed.

Example scenario_fail :
  assert_record
    {[ "computedValue" := VNum (Float (Number.decimal 171012 1));
       "referenceValue" := VNum (Float (Number.decimal 171000 1));
       "tolerance" := VNum (Float (Number.decimal 10 1)) ]}
  = Raise (AssertionError "not within delta").
Proof. vm_compute. reflexivity. Qed.

Example scenario_boundary :
  assert_record
    {[ "computedValue" := VNum (Float (Number.decimal 171010 1));
       "referenceValue" := VNum (Float (Number.decimal 171000 1));
       "tolerance" := VNum (Float (Number.decimal 10 1)) ]} = Ok tt.
Proof. vm_compute. reflexivity. Qed.

(** The same with integers and a mixed record: an integer tolerance for
    two [float]s is compared with the rounded difference exactly. *)
Example scenario_mixed :
  assert_record
    {[ "computedValue" := VNum (Float (Number.decimal 171004 1));
       "referenceValue" := VNum 17100; "tolerance" := VNum 1 ]} = Ok tt.
Proof. vm_compute. reflexivity. Qed.

(** C2: for a record whose computed value is a scalar, a tolerance that is
    present sends the record to the closeness check against the reference
    value; without a tolerance, a reference value that is present is
    compared for equality; with neither, the record passes whatever the
    computed value is. *)
Theorem scalar_branches (r : record) (cv : pyval) :
  r !! "computedValue" = Some cv ->
  has_iter cv = false ->
  (forall tol rv,
      r !! "tolerance" = Some tol -> r !! "referenceValue" = Some rv ->
      assert_record r = assertAlmostEqual cv rv tol) /\
  (forall rv,
      r !! "tolerance" = None -> r !! "referenceValue" = Some rv ->
      (assert_record r = Ok tt <-> py_eq cv rv = true) /\
      (py_eq cv rv = false ->
       exists msg, assert_record r = Raise (AssertionError msg))) /\
  (r !! "tolerance" = None -> r !! "referenceValue" = None ->
   assert_record r = Ok tt).
Proof.
  intros Hc Hi. split; [|split].
  - intros tol rv Ht Hr. by apply assert_record_scalar_tolerance.
  - intros rv Ht Hr. unfold assert_record.
    read_field. cbn [bind]. rewrite Hi. read_fields. unfold assertEqual.
    destruct (py_eq cv rv); split; try done. intros _. by eexists.
  - intros Ht Hr. unfold assert_record.
    read_field. cbn [bind]. rewrite Hi. by read_fields.
Qed.

(** A record with nothing but a computed value. *)
Lemma scalar_branches_witness :
  let r : record := {[ "computedValue" := VNum 3 ]} in
  assert_record r = Ok tt.
Proof.
  intros r.
  apply (scalar_branches r (VNum 3)); vm_compute; reflexivity.
Defined.

(** A tolerance without a reference value: reading the reference value
    raises. *)
Lemma scalar_tolerance_without_reference (r : record) (cv tol : pyval) :
  r !! "computedValue" = Some cv -> has_iter cv = false ->
  r !! "tolerance" = Some tol -> r !! "referenceValue" = None ->
  assert_record r = Raise (KeyError "referenceValue").
Proof.
  intros Hc Hi Ht Hr. unfold assert_record.
  read_field. cbn [bind]. rewrite Hi. read_fields. reflexivity.
Qed.

(** C8: without an assertion function of the caller and without the
    structured results file, the job fails with an assertion error whose
    message contains the path at which the file was looked for. *)
Theorem missing_results_file_fails
    (cwd : string) (files : gmap string (list record)) (jobName : string) :
  files !! outputFilePath cwd jobName = None ->
  exists msg,
    runAssertionsOnResults cwd files jobName None = Raise (AssertionError msg) /\
    is_substring (outputFilePath cwd jobName) msg = true.
Proof.
  intros H. unfold runAssertionsOnResults. rewrite H.
  eexists. split; [reflexivity|].
  unfold missing_results_message.
  rewrite <- (append_assoc _ dquote).
  apply is_substring_app.
Qed.

Lemma missing_results_file_fails_witness :
  exists msg,
    runAssertionsOnResults "/home/user/tests" ∅ "test_CPS4R_tension" None
      = Raise (AssertionError msg) /\
    is_substring "/home/user/tests/testOutput/test_CPS4R_tension_results.py" msg
      = true.
Proof.
  apply (missing_results_file_fails "/home/user/tests" ∅ "test_CPS4R_tension").
  reflexivity.
Defined.

(** C10, as stated, fails for an empty sequence: the loop over its indices
    has no iteration, neither field is read, and the record passes. *)
Lemma empty_sequence_counterexample :
  let r : record := {[ "computedValue" := VList [] ]} in
  has_iter (VList []) = true /\
  r !! "referenceValue" = None /\ r !! "tolerance" = None /\
  ~ (exists e, assert_record r = Raise e /\ is_LookupError e = true).
Proof.
  intros r. repeat split; try reflexivity.
  intros [e [H _]]. vm_compute in H. discriminate.
Qed.

(** Any record whose computed value is an empty sequence passes, whatever
    else it holds. *)
Lemma empty_sequence_passes (r : record) (cv : pyval) :
  r !! "computedValue" = Some cv -> has_iter cv = true -> py_len cv = Ok 0 ->
  assert_record r = Ok tt.
Proof.
  intros Hc Hi Hlen. unfold assert_record. read_field. cbn [bind].
  by rewrite Hi, Hlen.
Qed.

(** A sequence-shaped computed value with at least one element: the record
    is decided by the element at index 0 unless that one passes. *)
Lemma assert_record_sequence (r : record) (cv : pyval) :
  r !! "computedValue" = Some cv ->
  has_iter cv = true ->
  py_len cv <> Ok 0 ->
  forall e, assert_element r 0 = Raise e -> assert_record r = Raise e.
Proof.
  intros Hc Hi Hlen e He. unfold assert_record.
  read_field. cbn [bind]. rewrite Hi.
  destruct cv as [| | |l|l]; try discriminate; simpl;
    (destruct l as [|x l]; [by destruct Hlen|]); simpl; by rewrite He.
Qed.

Lemma py_index_first (cv : pyval) :
  has_iter cv = true -> py_len cv <> Ok 0 -> exists x, py_index cv 0 = Ok x.
Proof.
  intros Hi Hlen.
  destruct cv as [| | |l|l]; try discriminate;
    (destruct l as [|x l]; [by destruct Hlen|]); by exists x.
Qed.

(** C10 (amended): for a record whose computed value is a sequence with at
    least one element, the reference value and the tolerance are read for
    the first element before anything is compared.  Without a reference
    value the record fails with [KeyError]; with a reference value that can
    be indexed at 0 and without a tolerance it fails with [KeyError] too;
    and whenever either field is missing the record raises and is not
    taken as satisfied. *)
Theorem sequence_record_needs_fields (r : record) (cv : pyval) :
  r !! "computedValue" = Some cv ->
  has_iter cv = true ->
  py_len cv <> Ok 0 ->
  (r !! "referenceValue" = None ->
   assert_record r = Raise (KeyError "referenceValue")) /\
  (forall rv y,
      r !! "tolerance" = None ->
      r !! "referenceValue" = Some rv -> py_index rv 0 = Ok y ->
      assert_record r = Raise (KeyError "tolerance")) /\
  (r !! "referenceValue" = None \/ r !! "tolerance" = None ->
   exists e, assert_record r = Raise e).
Proof.
  intros Hc Hi Hlen.
  destruct (py_index_first cv Hi Hlen) as [x Hx].
  assert (NoRef : r !! "referenceValue" = None ->
                  assert_record r = Raise (KeyError "referenceValue")).
  { intros Hr. apply (assert_record_sequence r cv Hc Hi Hlen).
    unfold assert_element. read_fields. rewrite Hx. by read_fields. }
  assert (NoTol : forall rv,
             r !! "tolerance" = None -> r !! "referenceValue" = Some rv ->
             exists e, assert_record r = Raise e /\
                       forall y, py_index rv 0 = Ok y -> e = KeyError "tolerance").
  { intros rv Ht Hr.
    destruct (py_index rv 0) as [y|e] eqn:Hy.
    - exists (KeyError "tolerance"). split; [|done].
      apply (assert_record_sequence r cv Hc Hi Hlen).
      unfold assert_element. read_fields. rewrite Hx. read_fields. rewrite Hy. cbn [bind].
      destruct (is_tuple y); by read_fields.
    - exists e. split; [|done].
      apply (assert_record_sequence r cv Hc Hi Hlen).
      unfold assert_element. read_fields. rewrite Hx. read_fields. by rewrite Hy. }
  split; [exact NoRef|]. split.
  - intros rv y Ht Hr Hy.
    destruct (NoTol rv Ht Hr) as [e [He Hk]]. by rewrite He, (Hk y Hy).
  - intros [Hr|Ht]; [by eexists; apply NoRef|].
    destruct (r !! "referenceValue") as [rv|] eqn:Hr.
    + destruct (NoTol rv Ht eq_refl) as [e [He _]]. by exists e.
    + eexists. by apply NoRef.
Qed.

(** A list of two computed values and nothing else. *)
Lemma sequence_record_needs_fields_witness :
  let r : record := {[ "computedValue" := VList [VNum 1; VNum 2] ]} in
  assert_record r = Raise (KeyError "referenceValue").
Proof.
  intros r.
  apply (sequence_record_needs_fields r (VList [VNum 1; VNum 2]));
    [vm_compute; reflexivity | reflexivity | discriminate | vm_compute; reflexivity].
Defined.

(** A list of computed values with reference values and no tolerance. *)
Example sequence_without_tolerance :
  assert_record
    {[ "computedValue" := VList [VNum 1; VNum 2];
       "referenceValue" := VList [VNum 1; VNum 2] ]}
  = Raise (KeyError "tolerance").
Proof. vm_compute. reflexivity. Qed.

End ComparatorProperties.

(** ** The run-time instrumentation *)

Section TimerProperties.
Import Timer.

Lemma start_of_set_end (ph ph' : phase) (now : Q) (st : state) :
  start_of ph (set_end ph' now st) = start_of ph st.
Proof. by destruct ph, ph'. Qed.

Lemma start_of_set_time (ph ph' : phase) (d : Q) (st : state) :
  start_of ph (set_time ph' d st) = start_of ph st.
Proof. by destruct ph, ph'. Qed.

Lemma start_of_set_start_ne (ph ph' : phase) (now : Q) (st : state) :
  ph <> ph' -> start_of ph (set_start ph' now st) = start_of ph st.
Proof. by destruct ph, ph'. Qed.

(** One call on an end marker of a phase that has no start: the end is
    stored, the subtraction raises, nothing is written. *)
Lemma processLine_end_without_start (ph : phase) (st : state) (line : string) (now : Q) :
  marker_of line = Some (End ph) ->
  start_of ph st = None ->
  processLine st line now =
    {| after := set_end ph now st; reports := []; raised := Some TypeError |}.
Proof.
  intros Hm Hs. unfold processLine. rewrite Hm.
  by rewrite start_of_set_end, Hs.
Qed.

(** A call raises nothing but [TypeError], and then writes nothing. *)
Lemma processLine_raised (st : state) (line : string) (now : Q) (e : exn) :
  raised (processLine st line now) = Some e ->
  e = TypeError /\ reports (processLine st line now) = [].
Proof.
  unfold processLine.
  destruct (marker_of line) as [[ph|ph]|]; simpl; try discriminate.
  unfold elapsed. destruct (start_of ph (set_end ph now st)); simpl; [discriminate|].
  intros [= <-]. done.
Qed.

(** A call that does not start phase [ph] leaves its start as it is, and
    reports a duration for [ph] only if [ph] had a start. *)
Lemma processLine_keeps_no_start (ph : phase) (st : state) (line : string) (now : Q) :
  marker_of line <> Some (Begin ph) ->
  start_of ph st = None ->
  start_of ph (after (processLine st line now)) = None /\
  forall d, (ph, d) ∉ reports (processLine st line now).
Proof.
  intros Hm Hs. unfold processLine.
  destruct (marker_of line) as [[ph'|ph']|]; simpl.
  - split; [|intros d; apply not_elem_of_nil].
    rewrite start_of_set_start_ne; [done | congruence].
  - unfold elapsed. rewrite start_of_set_end.
    destruct (start_of ph' st) as [s|] eqn:Hs'; simpl.
    + split; [by rewrite start_of_set_time, start_of_set_end|].
      intros d Hin. apply list_elem_of_singleton in Hin.
      injection Hin as -> _. congruence.
    + split; [by rewrite start_of_set_end | intros d; apply not_elem_of_nil].
  - split; [done | intros d; apply not_elem_of_nil].
Qed.

Lemma feed_end_without_start (ph : phase) (before : list (string * Q))
    (line : string) (now : Q) (rest : list (string * Q)) (st : state) :
  no_start ph before = true ->
  marker_of line = Some (End ph) ->
  start_of ph st = None ->
  raised (feed st (before ++ (line, now) :: rest)) = Some TypeError /\
  forall d, (ph, d) ∉ reports (feed st (before ++ (line, now) :: rest)).
Proof.
  intros Hb Hm. revert st.
  induction before as [|[l t] before IH]; intros st Hs.
  - simpl. rewrite (processLine_end_without_start ph st line now Hm Hs). simpl.
    split; [done | intros d; apply not_elem_of_nil].
  - simpl in Hb. apply andb_true_iff in Hb as [Hl Hb].
    apply negb_true_iff, bool_decide_eq_false in Hl. simpl in Hl.
    destruct (processLine_keeps_no_start ph st l t Hl Hs) as [Hs' Hno].
    simpl. destruct (raised (processLine st l t)) as [e|] eqn:Hr.
    + destruct (processLine_raised st l t e Hr) as [-> Hrep].
      split; [done|]. intros d. rewrite Hrep. apply not_elem_of_nil.
    + destruct (IH Hb _ Hs') as [IH1 IH2]. simpl. split; [exact IH1|].
      intros d Hin. apply elem_of_app in Hin as [Hin|Hin].
      * by apply (Hno d).
      * by apply (IH2 d).
Qed.

(** C3, as stated, fails: on a fresh timer the line [End Linking] makes
    [processLine] subtract [None] from the time of the end, which raises
    [TypeError]. *)
Lemma end_without_start_counterexample :
  let e := feed init [("End Linking", 5%Q)] in
  ~ (reports e = [] /\ raised e = None).
Proof. intros e [_ H]. vm_compute in H. discriminate. Qed.

(** C3 (amended): when a stream reaches an end marker of a phase and no
    line before it was a start marker of that phase, no duration is
    reported for the phase, and the timer raises [TypeError]: the end time
    is stored and the start, still [None], is subtracted from it. *)
Theorem end_marker_without_start (ph : phase) (before : list (string * Q))
    (line : string) (now : Q) (rest : list (string * Q)) :
  no_start ph before = true ->
  marker_of line = Some (End ph) ->
  raised (feed init (before ++ (line, now) :: rest)) = Some TypeError /\
  forall d, (ph, d) ∉ reports (feed init (before ++ (line, now) :: rest)).
Proof.
  intros Hb Hm. apply feed_end_without_start; [done | done | by destruct ph].
Qed.

Lemma end_marker_without_start_witness :
  raised (feed init ([("Abaqus JOB test_CPS4R_tension", 1%Q)]
                       ++ ("End Abaqus/Explicit Packager", 2%Q) :: []))
    = Some TypeError /\
  forall d, (Packager, d) ∉
    reports (feed init ([("Abaqus JOB test_CPS4R_tension", 1%Q)]
                          ++ ("End Abaqus/Explicit Packager", 2%Q) :: [])).
Proof.
  apply (end_marker_without_start Packager); reflexivity.
Defined.

(** The lines that take the three end branches. *)
Lemma marker_of_End_Linking (rest : string) :
  marker_of ("End Linking" +:+ rest) = Some (End Compile).
Proof.
  unfold marker_of, re_match_literal.
  rewrite (prefix_app "End Linking" rest). reflexivity.
Qed.

Lemma marker_of_End_Packager (rest : string) :
  marker_of ("End Abaqus/Explicit Packager" +:+ rest) = Some (End Packager).
Proof.
  unfold marker_of, re_match_literal.
  rewrite (prefix_app "End Abaqus/Explicit Packager" rest). reflexivity.
Qed.

Lemma marker_of_End_Analysis (rest : string) :
  marker_of ("End Abaqus/Explicit Analysis" +:+ rest) = Some (End Solver).
Proof.
  unfold marker_of, re_match_literal.
  rewrite (prefix_app "End Abaqus/Explicit Analysis" rest). reflexivity.
Qed.

(** With its start marker before it, an end marker reports the time
    between the two. *)
Example begin_then_end :
  reports (feed init [("Begin Linking", 5%Q); ("compiling", 6%Q); ("End Linking", 7%Q)])
  = [(Compile, (7 - 5)%Q)].
Proof. reflexivity. Qed.

End TimerProperties.

(** ** The line streamer *)

Section StreamerProperties.
Import Streamer.

Lemma append_empty_r (s : string) : s +:+ "" = s.
Proof.
  induction s as [|c s IH]; [reflexivity|]. by rewrite append_String, IH.
Qed.

Lemma in_newlines_char (c : ascii) :
  in_newlines (String c EmptyString) = is_newline c.
Proof.
  unfold in_newlines, newlines, is_newline. simpl.
  destruct (Ascii.eqb c LF), (Ascii.eqb c CR); reflexivity.
Qed.

Lemma split_chars_unfold (c : ascii) (s : string) :
  split_chars (String c s) =
    first_seg (String c s) :: split_chars (after_seg (String c s)).
Proof.
  revert c. induction s as [|c' s IH]; intros c.
  - simpl. by destruct (is_newline c).
  - cbn [split_chars first_seg after_seg] in *.
    destruct (is_newline c); [reflexivity|].
    rewrite IH. reflexivity.
Qed.

Lemma after_seg_length (s : string) :
  String.length (after_seg s) <= Nat.pred (String.length s).
Proof.
  induction s as [|c s IH]; simpl; [lia|].
  destruct (is_newline c); lia.
Qed.

Lemma has_newline_char (c : ascii) (s : string) :
  has_newline (String c s) = is_newline c || has_newline s.
Proof. reflexivity. Qed.

(** At the end of the stream the inner loop polls until the process is seen
    to have exited. *)
Lemma read_line_eof (n : nat) :
  forall (out : string) (fuel : nat),
    n + 1 <= fuel ->
    read_line fuel (Some n) out "" "" = Some (out, "", Some 0).
Proof.
  induction n as [|n IH]; intros out fuel Hf;
    (destruct fuel as [|fuel]; [lia|]); cbn [read_line];
    change (in_newlines "") with false; cbn iota;
    cbn [at_end String.eqb poll read1].
  - reflexivity.
  - rewrite append_empty_r. apply IH. lia.
Qed.

(** The inner loop on a process that exits: it ends, with the line up to
    the next delimiter; when it gets to the end of the stream, it has seen
    the process exit. *)
Lemma read_line_exits (s : string) :
  forall (c : ascii) (out : string) (n fuel : nat),
    String.length s + n + 2 <= fuel ->
    read_line fuel (Some n) out (String c EmptyString) s =
      Some (out +:+ first_seg (String c s), after_seg (String c s),
            if has_newline (String c s) then Some n else Some 0).
Proof.
  induction s as [|c' s IH]; intros c out n fuel Hf.
  - destruct fuel as [|fuel]; simpl in Hf; try lia.
    cbn [read_line first_seg after_seg has_newline]. rewrite in_newlines_char.
    destruct (is_newline c); [by rewrite append_empty_r|].
    cbn [at_end String.eqb read1 orb].
    by rewrite read_line_eof by lia.
  - destruct fuel as [|fuel]; simpl in Hf; try lia.
    rewrite has_newline_char.
    cbn [read_line first_seg after_seg]. rewrite in_newlines_char.
    destruct (is_newline c) eqn:Hc; [by rewrite append_empty_r|].
    cbn [at_end String.eqb read1 orb].
    rewrite IH by lia.
    cbn [first_seg after_seg].
    rewrite append_assoc, append_String, append_empty_l. reflexivity.
Qed.

Lemma first_seg_no_newline (s : string) :
  has_newline s = false -> first_seg s = s /\ after_seg s = "".
Proof.
  induction s as [|c s IH]; [done|]. rewrite has_newline_char.
  intros H. apply orb_false_iff in H as [Hc H]. cbn [first_seg after_seg].
  rewrite Hc. destruct (IH H) as [-> ->]. done.
Qed.

Lemma split_chars_no_delimiter (c : ascii) (s : string) :
  has_newline (String c s) = false -> split_chars (String c s) = [String c s].
Proof.
  revert c. induction s as [|c' s IH]; intros c H;
    rewrite has_newline_char in H; apply orb_false_iff in H as [Hc H].
  - cbn [split_chars]. by rewrite Hc.
  - specialize (IH c' H).
    change (split_chars (String c (String c' s)))
      with (if is_newline c then "" :: split_chars (String c' s)
            else cons_char c (split_chars (String c' s))).
    by rewrite Hc, IH.
Qed.

Lemma ends_line_no_delimiter (c : ascii) (s : string) :
  has_newline (String c s) = false -> ends_line (String c s) = false.
Proof.
  revert c. induction s as [|c' s IH]; intros c H;
    rewrite has_newline_char in H; apply orb_false_iff in H as [Hc H].
  - exact Hc.
  - exact (IH c' H).
Qed.

Lemma ends_line_after_seg (c : ascii) (s : string) :
  has_newline (String c s) = true ->
  ends_line (after_seg (String c s)) = ends_line (String c s).
Proof.
  revert c. induction s as [|c' s IH]; intros c H;
    rewrite has_newline_char in H; cbn [after_seg].
  - cbn [has_newline] in H. rewrite orb_false_r in H. by rewrite H.
  - destruct (is_newline c); [reflexivity|]. cbn [orb] in H.
    exact (IH c' H).
Qed.

(** On any sequence of characters that the streamer reads from a process
    that exits, it ends.  It yields the sequence split at every single line
    feed and every single carriage return and, when the sequence ends
    between two lines before the process is seen to have exited, one more
    line, which is empty. *)
Lemma outputStreamer_exits (k : nat) :
  forall (s : string) (n fuel : nat),
    String.length s <= k -> k + n + 2 <= fuel ->
    outputStreamer fuel (Some n) s = Some (split_chars s ++ trailing n s)%list.
Proof.
  induction k as [|k IH]; intros s n fuel Hs Hf.
  - destruct s; simpl in Hs; [|lia].
    destruct fuel as [|fuel]; [lia|].
    cbn [outputStreamer read1 at_end String.eqb].
    destruct n as [|n]; [reflexivity|]. cbn [poll].
    rewrite read_line_eof by lia.
    destruct fuel as [|fuel]; [lia|]. reflexivity.
  - destruct s as [|c s]; [apply IH; simpl; lia|].
    destruct fuel as [|fuel]; [lia|]. simpl in Hs.
    cbn [outputStreamer read1 at_end String.eqb].
    rewrite read_line_exits by lia. rewrite append_empty_l.
    destruct (has_newline (String c s)) eqn:Hn.
    + rewrite IH; [| |lia].
      * cbn [option_map]. rewrite split_chars_unfold. unfold trailing.
        by rewrite (ends_line_after_seg c s Hn).
      * pose proof (after_seg_length (String c s)) as H.
        change (String.length (String c s)) with (S (String.length s)) in H.
        lia.
    + destruct (first_seg_no_newline _ Hn) as [-> ->].
      rewrite (IH "" 0) by (simpl; lia). cbn [option_map].
      rewrite (split_chars_no_delimiter c s Hn). unfold trailing.
      by rewrite (ends_line_no_delimiter c s Hn).
Qed.

Lemma LF_is_newline : is_newline LF = true.
Proof. reflexivity. Qed.

Lemma universal_newlines_length (n : nat) :
  forall raw : string,
    String.length raw <= n ->
    String.length (universal_newlines raw) <= String.length raw.
Proof.
  induction n as [|n IH]; intros raw Hn.
  - destruct raw; simpl in *; lia.
  - destruct raw as [|c raw]; [simpl; lia|].
    cbn [universal_newlines]. simpl in Hn.
    destruct (Ascii.eqb c CR).
    + destruct raw as [|c' raw]; [simpl; lia|]. simpl in Hn.
      destruct (Ascii.eqb c' LF).
      * specialize (IH raw ltac:(lia)). simpl. lia.
      * specialize (IH (String c' raw) ltac:(simpl; lia)).
        change (String.length (String LF (universal_newlines (String c' raw))))
          with (S (String.length (universal_newlines (String c' raw)))).
        change (String.length (String c (String c' raw)))
          with (S (String.length (String c' raw))).
        lia.
    + specialize (IH raw ltac:(lia)). simpl. lia.
Qed.

(** After the translation done by the universal-newlines mode, splitting
    at every line feed and carriage return gives the lines of the raw
    stream. *)
Lemma split_chars_universal_newlines (n : nat) :
  forall raw : string,
    String.length raw <= n ->
    split_chars (universal_newlines raw) = spec_lines raw.
Proof.
  induction n as [|n IH]; intros raw Hn.
  - destruct raw; simpl in *; [reflexivity | lia].
  - destruct raw as [|c raw]; [reflexivity|]. simpl in Hn.
    cbn [universal_newlines spec_lines].
    destruct (Ascii.eqb_spec c CR) as [->|Hcr].
    + change (Ascii.eqb CR LF) with false. cbn iota.
      destruct raw as [|c' raw]; [reflexivity|]. simpl in Hn.
      destruct (Ascii.eqb c' LF).
      * cbn [split_chars]. rewrite LF_is_newline. by rewrite IH by lia.
      * cbn [split_chars]. rewrite LF_is_newline.
        by rewrite (IH (String c' raw)) by (simpl; lia).
    + cbn [split_chars]. unfold is_newline.
      apply Ascii.eqb_neq in Hcr. rewrite Hcr, orb_false_r.
      destruct (Ascii.eqb c LF); by rewrite IH by lia.
Qed.

(** Without a carriage return directly before a line feed, splitting at
    every single delimiter gives the lines of the stream. *)
Lemma split_chars_without_crlf (s : string) :
  has_crlf s = false -> split_chars s = spec_lines s.
Proof.
  induction s as [|c s IH]; [reflexivity|].
  cbn [has_crlf]. intros H. apply orb_false_iff in H as [Hc H].
  specialize (IH H). cbn [split_chars spec_lines]. unfold is_newline.
  destruct (Ascii.eqb c LF); cbn [orb]; [by rewrite IH|].
  destruct (Ascii.eqb c CR); [|by rewrite IH].
  destruct s as [|c' s]; [reflexivity|].
  cbn [andb] in Hc. rewrite Hc. by rewrite IH.
Qed.

(** On any sequence of characters the streamer reads from a process that
    has exited, it ends and yields the sequence split at every single line
    feed and every single carriage return. *)
Lemma outputStreamer_split_chars (fuel : nat) (s : string) :
  String.length s + 2 <= fuel ->
  outputStreamer fuel (Some 0) s = Some (split_chars s).
Proof.
  intros Hf.
  rewrite (outputStreamer_exits (String.length s) s 0 fuel) by lia.
  unfold trailing. cbn [Nat.eqb negb]. by rewrite andb_false_r, app_nil_r.
Qed.

(** C9, as stated, fails on a carriage return directly followed by a line
    feed: [read(1)] hands the two characters to the streamer one by one,
    each ends a line, and an empty line is yielded between them.  The
    two-character entry of [newlines] is never equal to what [read(1)]
    returns. *)
Lemma crlf_counterexample :
  let s := "a" +:+ String CR (String LF "b") in
  spec_lines s = ["a"; "b"] /\
  outputStreamer 6 (Some 0) s = Some ["a"; ""; "b"] /\
  outputStreamer 6 (Some 0) s <> Some (spec_lines s).
Proof. intros s. split; [reflexivity|]. split; [reflexivity|]. discriminate. Qed.

(** C9 (amended): on the characters [s] that come from a process that has
    exited, the streamer ends and yields [s] split at every single line
    feed and every single carriage return, with these stripped and a last
    line without delimiter counted.  When no carriage return is directly
    followed by a line feed, these are exactly the lines of [s], with each
    of a line feed and a carriage return as one delimiter.  And on [s] read
    through the pipe as [_callAbaqus] opens it (universal-newlines mode) the
    streamer yields exactly the lines of [s], where a carriage return
    followed by a line feed is one delimiter too. *)
Theorem outputStreamer_lines (fuel : nat) (s : string) :
  String.length s + 2 <= fuel ->
  outputStreamer fuel (Some 0) s = Some (split_chars s) /\
  (has_crlf s = false -> outputStreamer fuel (Some 0) s = Some (spec_lines s)) /\
  outputStreamer fuel (Some 0) (universal_newlines s) = Some (spec_lines s).
Proof.
  intros Hf. split; [by apply outputStreamer_split_chars|]. split.
  - intros H. rewrite outputStreamer_split_chars by done.
    by rewrite split_chars_without_crlf.
  - pose proof (universal_newlines_length _ s (le_n _)) as Hlen.
    rewrite outputStreamer_split_chars by lia.
    f_equal. by apply (split_chars_universal_newlines (String.length s)).
Qed.

Lemma outputStreamer_lines_witness :
  outputStreamer 12 (Some 0)
    (universal_newlines ("ab" +:+ String CR (String LF "cd") +:+ String CR "e"))
  = Some ["ab"; "cd"; "e"].
Proof.
  apply (outputStreamer_lines 12
           ("ab" +:+ String CR (String LF "cd") +:+ String CR "e")).
  vm_compute. lia.
Defined.

(** A stream that ends between two lines before the process is seen to have
    exited: one more line is yielded, and it is empty. *)
Example eof_before_exit :
  outputStreamer 8 (Some 0) ("ab" +:+ String LF "") = Some ["ab"] /\
  outputStreamer 8 (Some 1) ("ab" +:+ String LF "") = Some ["ab"; ""] /\
  outputStreamer 8 (Some 3) "ab" = Some ["ab"].
Proof. repeat split. Qed.

(** Once the inner loop has started to poll, what is pending stays unknown
    for a process that is never seen to exit. *)
Lemma read_line_never_exits (fuel : nat) :
  forall (out last s out' s' : string) (p : option nat),
    read_line fuel None out last s = Some (out', s', p) -> p = None.
Proof.
  induction fuel as [|fuel IH]; intros out last s out' s' p H; [discriminate|].
  cbn [read_line] in H. destruct (in_newlines last); [congruence|].
  unfold at_end in H. destruct (String.eqb last ""); cbn [poll] in H;
    destruct (read1 s) as [last' s1]; by apply IH in H.
Qed.

End StreamerProperties.

(** ** The per-job expiration *)

Section ExpirationProperties.
Import Expiration.

(** [runTest] assigns to no attribute of [options] but [expiration]. *)
Lemma check_expiration_frame (para : gmap string pyval) (o : options) :
  let o' := check_expiration para o in
  interactive o' = interactive o /\ time o' = time o /\
  precompileCode o' = precompileCode o /\
  useExistingResults o' = useExistingResults o /\
  abaqusCmd o' = abaqusCmd o /\ cpus o' = cpus o /\ host o' = host o /\
  verbose o' = verbose o /\ double o' = double o /\ doNotSave o' = doNotSave o.
Proof.
  unfold check_expiration.
  destruct (para !! "expiration") as [e|];
    match goal with |- context [lt_zero ?v] => destruct (lt_zero v) end;
    simpl; repeat split.
Qed.

(** A job that declares an expiration leaves it in [options]. *)
Lemma check_expiration_declared (para : gmap string pyval) (o : options) (n : Z) :
  para !! "expiration" = Some (VNum n) -> (0 <= n)%Z ->
  expiration (check_expiration para o) = VNum n.
Proof.
  intros Hp Hn. unfold check_expiration. rewrite Hp.
  cbn [expiration set_expiration lt_zero].
  unfold Number.ltb. cbn [Number.compare].
  by destruct (Z.compare_spec n 0); [| lia |].
Qed.

(** A job that declares none runs with whatever [options] holds. *)
Lemma check_expiration_undeclared (para : gmap string pyval) (o : options) :
  para !! "expiration" = None -> lt_zero (expiration o) = false ->
  expiration (check_expiration para o) = expiration o.
Proof. intros Hp Hq. unfold check_expiration. by rewrite Hp, Hq. Qed.

(** C7 does not hold of the code.  With a run-wide limit of 100 seconds, a
    job that declares an expiration of 5 seconds and then a job that
    declares none: the second job runs with 5 seconds, while on its own it
    runs with 100.  The assignment in line 336 is to the shared
    [options]. *)
Theorem expiration_override_leaks :
  let o := set_expiration (VNum 100) default_options in
  let declares_5 : gmap string pyval := {[ "expiration" := VNum 5 ]} in
  let declares_none : gmap string pyval := ∅ in
  run_jobs [declares_5; declares_none] o = [VNum 5; VNum 5] /\
  run_jobs [declares_none] o = [VNum 100].
Proof. split; vm_compute; reflexivity. Qed.

(** The same with the default of no limit: after a job that declares 5
    seconds, a job that declares nothing is limited to 5 seconds too. *)
Example expiration_override_leaks_default :
  run_jobs [ {[ "expiration" := VNum 5 ]}; ∅ ] default_options = [VNum 5; VNum 5] /\
  run_jobs [ ∅ ] default_options = [VNone].
Proof. split; vm_compute; reflexivity. Qed.

End ExpirationProperties.

(** ** The parametric test generator *)

Section CleanupProperties.
Import Parametric.

(** When the try block leaves all the generated files in place, the
    finally block removes them all. *)
Lemma finally_block_removes_all (tc : testCase) (fs : files) :
  (name tc +:+ ".inp") ∈ fs ->
  (name tc +:+ "_expected.py") ∈ fs ->
  (pythonScriptForModel tc = true -> (name tc +:+ ".py") ∈ fs) ->
  (name tc +:+ ".inp") <> (name tc +:+ "_expected.py") ->
  (name tc +:+ ".inp") <> (name tc +:+ ".py") ->
  (name tc +:+ "_expected.py") <> (name tc +:+ ".py") ->
  exists fs',
    finally_block tc fs = (fs', Ok tt) /\
    ((name tc +:+ ".inp") ∉ fs') /\ ((name tc +:+ "_expected.py") ∉ fs') /\
    (pythonScriptForModel tc = true -> (name tc +:+ ".py") ∉ fs').
Proof.
  intros In1 In2 In3 N1 N2 N3. unfold finally_block, and_then, os_remove.
  rewrite decide_True by done.
  rewrite decide_True
    by (apply elem_of_difference; split; [done|by rewrite elem_of_singleton]).
  destruct (pythonScriptForModel tc).
  - rewrite decide_True
      by (rewrite !elem_of_difference, !elem_of_singleton; auto).
    eexists. split; [reflexivity|].
    rewrite !elem_of_difference, !elem_of_singleton. tauto.
  - eexists. split; [reflexivity|].
    rewrite !elem_of_difference, !elem_of_singleton.
    split; [tauto|]. split; [tauto|]. discriminate.
Qed.

(** C6 does not hold of the code.  A test case with a model script whose
    run by Abaqus writes no input deck: [_runModel] raises when it copies
    the input deck, the finally block raises at its first [os.remove], and
    the generated script and the generated expected results file stay. *)
Theorem cleanup_skipped_after_failed_remove :
  let tc := {| name := "job"; baseName := "base"; pythonScriptForModel := true |} in
  let w := {| script_writes_inp := false; verdict := Ok tt |} in
  let fs : files := {[ "base.py"; "base_expected.py" ]} in
  snd (test w tc fs) = Raise (OSError "job.inp") /\
  "job.py" ∈ fst (test w tc fs) /\
  "job_expected.py" ∈ fst (test w tc fs).
Proof.
  intros tc w fs. split; [vm_compute; reflexivity|].
  split; apply (bool_decide_unpack _); vm_compute; exact I.
Qed.

(** The same when the template of the expected results file is missing:
    the generated script stays. *)
Example cleanup_skipped_missing_expected :
  let tc := {| name := "job"; baseName := "base"; pythonScriptForModel := true |} in
  let w := {| script_writes_inp := true; verdict := Ok tt |} in
  let fs : files := {[ "base.py" ]} in
  "job.py" ∈ fst (test w tc fs).
Proof. apply (bool_decide_unpack _); vm_compute; exact I. Qed.

(** A run in which everything is in place leaves none of the three. *)
Example cleanup_after_pass :
  let tc := {| name := "job"; baseName := "base"; pythonScriptForModel := true |} in
  let w := {| script_writes_inp := true; verdict := Ok tt |} in
  let fs : files := {[ "base.py"; "base_expected.py" ]} in
  snd (test w tc fs) = Ok tt /\
  ("job.inp" ∉ fst (test w tc fs)) /\ ("job.py" ∉ fst (test w tc fs)) /\
  "job_expected.py" ∉ fst (test w tc fs).
Proof.
  intros tc w fs. split; [vm_compute; reflexivity|].
  repeat split; apply (bool_decide_unpack _); vm_compute; exact I.
Qed.

End CleanupProperties.

Section SubstitutionProperties.
Import Parametric.

Lemma line_matches_unfold (p line : string) :
  line_matches p line =
    match strip_prefix p line with
    | Some rest => match_eq_tail rest
    | None => false
    end
    || match line with
       | EmptyString => false
       | String _ line' => line_matches p line'
       end.
Proof. destruct line; reflexivity. Qed.

Lemma strip_prefix_Some (p s rest : string) :
  strip_prefix p s = Some rest -> s = p +:+ rest.
Proof.
  revert s. induction p as [|a p IH]; intros s H.
  - destruct s; simpl in H; injection H as <-; reflexivity.
  - destruct s as [|b s]; simpl in H; [discriminate|].
    destruct (Ascii.eqb_spec a b) as [->|]; [|discriminate].
    by rewrite append_String, <- (IH _ H).
Qed.

Lemma strip_prefix_app (p rest : string) : strip_prefix p (p +:+ rest) = Some rest.
Proof.
  induction p as [|a p IH]; [by destruct rest|].
  rewrite append_String. simpl. by rewrite Ascii.eqb_refl.
Qed.

Lemma match_eq_tail_split (s : string) :
  match_eq_tail s = true -> exists b c, s = b +:+ "=" +:+ c.
Proof.
  induction s as [|ch s IH]; simpl; [discriminate|].
  intros H. apply orb_true_iff in H as [H|H].
  - apply andb_true_iff in H as [H _]. apply Ascii.eqb_eq in H as ->.
    by exists "", s.
  - apply andb_true_iff in H as [_ H].
    destruct (IH H) as (b & c & ->). by exists (String ch b), c.
Qed.

Lemma match_eq_tail_app (b c : string) :
  no_LF b = true -> match_tail c = true -> match_eq_tail (b +:+ "=" +:+ c) = true.
Proof.
  induction b as [|ch b IH]; intros Hb Hc.
  - rewrite append_empty_l, append_char. simpl. by rewrite Hc.
  - simpl in Hb. apply andb_true_iff in Hb as [Hch Hb].
    rewrite append_String. simpl. rewrite Hch, (IH Hb Hc). apply orb_true_r.
Qed.

(** A line the pattern matches has the name, later an equals sign. *)
Lemma line_matches_shape (p line : string) :
  line_matches p line = true ->
  exists a b c, line = a +:+ p +:+ b +:+ "=" +:+ c.
Proof.
  induction line as [|ch line IH]; rewrite line_matches_unfold; intros H;
    apply orb_true_iff in H as [H|H]; try discriminate.
  - destruct (strip_prefix p "") as [rest|] eqn:E; [|discriminate].
    apply strip_prefix_Some in E. destruct (match_eq_tail_split _ H) as (b & c & ->).
    by exists "", b, c.
  - destruct (strip_prefix p (String ch line)) as [rest|] eqn:E; [|discriminate].
    apply strip_prefix_Some in E. destruct (match_eq_tail_split _ H) as (b & c & ->).
    by exists "", b, c.
  - destruct (IH H) as (a & b & c & ->). by exists (String ch a), b, c.
Qed.

(** A line in which the name is followed, on the same line, by an equals
    sign is matched. *)
Lemma line_matches_intro (p a b c : string) :
  no_LF b = true -> match_tail c = true ->
  line_matches p (a +:+ p +:+ b +:+ "=" +:+ c) = true.
Proof.
  intros Hb Hc. induction a as [|ch a IH].
  - rewrite append_empty_l, line_matches_unfold, strip_prefix_app.
    by rewrite match_eq_tail_app.
  - rewrite append_String, line_matches_unfold, IH. apply orb_true_r.
Qed.

(** A line with an equals sign is what comes before the first one, the
    sign, and what comes after it. *)
Lemma before_after_eq (b c : string) :
  let line := b +:+ "=" +:+ c in
  line = before_eq line +:+ "=" +:+ after_eq line /\
  is_substring "=" (before_eq line) = false.
Proof.
  induction b as [|ch b IH]; cbn zeta in *.
  - rewrite append_empty_l, append_char. simpl. done.
  - rewrite (append_String ch b). cbn [before_eq after_eq].
    destruct (Ascii.eqb_spec ch "=") as [->|Hne]; [done|].
    destruct IH as [IH1 IH2]. split.
    + rewrite (append_String ch (before_eq _)). by rewrite <- IH1.
    + rewrite is_substring_unfold, IH2, prefix_String.
      destruct (ascii_dec "=" ch); [congruence|]. reflexivity.
Qed.

Lemma line_matches_before_after (p line : string) :
  line_matches p line = true ->
  line = before_eq line +:+ "=" +:+ after_eq line /\
  is_substring "=" (before_eq line) = false.
Proof.
  intros H. destruct (line_matches_shape _ _ H) as (a & b & c & ->).
  pose proof (before_after_eq (a +:+ p +:+ b) c) as E. cbn zeta in E.
  rewrite !append_assoc in E. exact E.
Qed.

(** *** The first match *)

Lemma first_match_None (p : string) (data : list string) :
  (forall j text, data !! j = Some text -> line_matches p text = false) ->
  first_match p data = None.
Proof.
  induction data as [|t data IH]; intros H; [reflexivity|].
  simpl. rewrite (H 0 t eq_refl).
  rewrite IH; [reflexivity|]. intros j text Hj. exact (H (S j) text Hj).
Qed.

Lemma first_match_None_inv (p : string) (data : list string) :
  first_match p data = None ->
  forall j text, data !! j = Some text -> line_matches p text = false.
Proof.
  induction data as [|t data IH]; intros H j text Hj; [discriminate|].
  simpl in H. destruct (line_matches p t) eqn:Ht; [discriminate|].
  destruct (first_match p data); [discriminate|].
  destruct j as [|j]; simpl in Hj.
  - by injection Hj as <-.
  - by apply (IH eq_refl j).
Qed.

Lemma first_match_least (p : string) (data : list string) :
  forall k text,
    data !! k = Some text -> line_matches p text = true ->
    (forall j text', j < k -> data !! j = Some text' -> line_matches p text' = false) ->
    first_match p data = Some k.
Proof.
  induction data as [|t data IH]; intros k text Hk Hm Hlt; [discriminate|].
  destruct k as [|k]; simpl in *.
  - injection Hk as ->. by rewrite Hm.
  - rewrite (Hlt 0 t ltac:(lia) eq_refl).
    rewrite (IH k text Hk Hm); [reflexivity|].
    intros j text' Hj. apply (Hlt (S j)). lia.
Qed.

Lemma first_match_Some (p : string) (data : list string) :
  forall i,
    first_match p data = Some i ->
    exists text,
      data !! i = Some text /\ line_matches p text = true /\
      forall j text', j < i -> data !! j = Some text' -> line_matches p text' = false.
Proof.
  induction data as [|t data IH]; intros i H; [discriminate|].
  simpl in H. destruct (line_matches p t) eqn:Ht.
  - injection H as <-. exists t. repeat split; [done|]. intros j text' Hj. lia.
  - destruct (first_match p data) as [i'|] eqn:E; [|discriminate].
    injection H as <-. destruct (IH i' eq_refl) as (text & H1 & H2 & H3).
    exists text. repeat split; [done | done |].
    intros [|j] text' Hj Hl; simpl in Hl.
    + by injection Hl as <-.
    + apply (H3 j); [lia | done].
Qed.

(** The loop over the indices, from index [k] on, when no line before [k]
    matches: the first matching line is rewritten and the loop is left. *)
Lemma scan_seq (p value : string) (data : list string) (n : nat) :
  forall k,
    k + n = length data ->
    (forall j text, j < k -> data !! j = Some text -> line_matches p text = false) ->
    scan p value data (seq k n) =
      match first_match p data with
      | Some i =>
          match data !! i with
          | Some text => <[i := rewritten text value]> data
          | None => data
          end
      | None => data
      end.
Proof.
  induction n as [|n IH]; intros k Hk Hlt.
  - simpl. rewrite first_match_None; [reflexivity|].
    intros j text Hj. apply (Hlt j); [|done].
    apply lookup_lt_Some in Hj. lia.
  - simpl. destruct (data !! k) as [text|] eqn:Ek.
    + destruct (line_matches p text) eqn:Hm.
      * by rewrite (first_match_least p data k text Ek Hm Hlt), Ek.
      * apply IH; [lia|]. intros j text' Hj Hl.
        destruct (decide (j = k)) as [->|Hne]; [congruence|].
        apply (Hlt j); [lia | done].
    + apply lookup_ge_None in Ek. lia.
Qed.

Lemma substitute_first_match (p value : string) (data : list string) :
  substitute p value data =
    match first_match p data with
    | Some i =>
        match data !! i with
        | Some text => <[i := rewritten text value]> data
        | None => data
        end
    | None => data
    end.
Proof.
  unfold substitute. apply scan_seq; [reflexivity|]. intros j text Hj. lia.
Qed.

(** C5: the substitution of a parameter, whose name is taken literally,
    rewrites the first line in which the name is followed, on that line,
    by an equals sign: that line keeps what it has up to its first equals
    sign, and what follows the sign becomes a blank, the value and a line
    feed.  No line before it matches, and every other line, so each later
    line that matches too, is left as it is.  Without a matching line the
    template is unchanged. *)
Theorem substitute_first_match_only (p value : string) (data : list string) :
  regex_literal p = true ->
  match first_match p data with
  | None =>
      (forall j text, data !! j = Some text -> line_matches p text = false) /\
      substitute p value data = data
  | Some i =>
      exists text,
        data !! i = Some text /\
        (exists a b c, text = a +:+ p +:+ b +:+ "=" +:+ c) /\
        (forall j text', j < i -> data !! j = Some text' ->
                         line_matches p text' = false) /\
        text = before_eq text +:+ "=" +:+ after_eq text /\
        is_substring "=" (before_eq text) = false /\
        substitute p value data !! i =
          Some (before_eq text +:+ "=" +:+ " " +:+ value +:+ String LF "") /\
        (forall j, j <> i -> substitute p value data !! j = data !! j) /\
        length (substitute p value data) = length data
  end.
Proof.
  intros _. rewrite substitute_first_match.
  destruct (first_match p data) as [i|] eqn:E.
  - destruct (first_match_Some p data i E) as (text & H1 & H2 & H3).
    exists text. rewrite H1.
    destruct (line_matches_before_after p text H2) as [H4 H5].
    split; [done|]. split; [by apply line_matches_shape|].
    split; [done|]. split; [done|]. split; [done|]. split; [|split].
    + rewrite list_lookup_insert_eq by (by apply lookup_lt_Some in H1).
      reflexivity.
    + intros j Hj. by rewrite list_lookup_insert_ne.
    + apply length_insert.
  - split; [|reflexivity]. by apply first_match_None_inv.
Qed.

(** A template with two lines that match [alpha]: the first is rewritten,
    the second is not. *)
Lemma substitute_first_match_only_witness :
  let data :=
    ["*Parameter" +:+ String LF ""; "alpha = 3" +:+ String LF "";
     "beta = 2*alpha = 6" +:+ String LF ""] in
  exists text,
    data !! 1 = Some text /\
    substitute "alpha" "10" data !! 1 =
      Some (before_eq text +:+ "=" +:+ " " +:+ "10" +:+ String LF "") /\
    (forall j, j <> 1 -> substitute "alpha" "10" data !! j = data !! j).
Proof.
  intros data.
  destruct (substitute_first_match_only "alpha" "10" data eq_refl)
    as (text & H1 & _ & _ & _ & _ & H2 & H3 & _).
  exists text. repeat split; assumption.
Defined.

Example substitute_example :
  substitute "alpha" "10"
    ["*Parameter" +:+ String LF ""; "alpha = 3" +:+ String LF "";
     "beta = 2*alpha = 6" +:+ String LF ""]
  = ["*Parameter" +:+ String LF ""; "alpha = 10" +:+ String LF "";
     "beta = 2*alpha = 6" +:+ String LF ""].
Proof. vm_compute. reflexivity. Qed.

(** A name that is part of another name: the line of the longer name comes
    first and is the one rewritten. *)
Example substitute_substring_of_other_name :
  substitute "E1" "5"
    ["E11 = 1" +:+ String LF ""; "E1 = 2" +:+ String LF ""]
  = ["E11 = 5" +:+ String LF ""; "E1 = 2" +:+ String LF ""].
Proof. vm_compute. reflexivity. Qed.

End SubstitutionProperties.

Section NameProperties.
Import Parametric.

(** *** The size of the matrix *)

Lemma length_product_step {A : Type} (d : list A) (rest : list (list A)) :
  length (flat_map (fun v => map (cons v) rest) d) = length d * length rest.
Proof.
  induction d as [|v d IH]; [reflexivity|].
  simpl. by rewrite List.length_app, List.length_map, IH.
Qed.

Lemma length_product (parameters : list (string * list pvalue)) :
  length (product (map snd parameters)) = matrix_size parameters.
Proof.
  induction parameters as [|[k d] ps IH]; [reflexivity|].
  simpl. by rewrite length_product_step, IH.
Qed.

(** The elements of the product take one value from each domain. *)
Lemma in_product {A : Type} (domains : list (list A)) :
  forall combo, In combo (product domains) -> Forall2 (fun v d => In v d) combo domains.
Proof.
  induction domains as [|d ds IH]; intros combo H.
  - destruct H as [<-|[]]. constructor.
  - simpl in H. apply in_flat_map in H as (v & Hv & H).
    apply in_map_iff in H as (c & <- & Hc). constructor; [done|]. by apply IH.
Qed.

Lemma NoDup_product {A : Type} (domains : list (list A)) :
  Forall (@List.NoDup A) domains -> List.NoDup (product domains).
Proof.
  induction domains as [|d ds IH]; intros H.
  - simpl. constructor; [by intros []|constructor].
  - inversion H as [|? ? Hd Hds]; subst. specialize (IH Hds). simpl.
    clear H Hds. induction Hd as [|v d Hv Hd IHd]; [constructor|].
    simpl. apply List.NoDup_app.
    + apply NoDup_map_NoDup_ForallPairs; [|done].
      intros x y _ _ E. by injection E.
    + exact IHd.
    + intros c Hc Hc'. apply in_map_iff in Hc as (c1 & <- & _).
      apply in_flat_map in Hc' as (w & Hw & Hc').
      apply in_map_iff in Hc' as (c2 & E & _). injection E as -> _. done.
Qed.

(** *** Names and tokens *)

Lemma remove_periods_app (a b : string) :
  remove_periods (a +:+ b) = remove_periods a +:+ remove_periods b.
Proof.
  induction a as [|c a IH]; [reflexivity|].
  rewrite append_String. simpl. destruct (Ascii.eqb c "."); [exact IH|].
  by rewrite append_String, IH.
Qed.

Lemma concat_unfold (sep a b : string) (l : list string) :
  String.concat sep (a :: b :: l) = a +:+ sep +:+ String.concat sep (b :: l).
Proof. reflexivity. Qed.

Lemma concat_contains (sep x : string) (l : list string) :
  In x l -> exists pre post, String.concat sep l = pre +:+ x +:+ post.
Proof.
  induction l as [|a l IH]; intros H; [destruct H|].
  destruct l as [|b l].
  - destruct H as [->|[]]. exists "", "". by rewrite append_empty_l, append_empty_r.
  - rewrite concat_unfold. destruct H as [->|H].
    + by exists "", (sep +:+ String.concat sep (b :: l)).
    + destruct (IH H) as (pre & post & ->).
      exists (a +:+ sep +:+ pre), post. by rewrite !append_assoc.
Qed.

Lemma test_name_contains (baseName : string) (tc : list (string * pvalue))
    (kv : string * pvalue) :
  In kv tc ->
  is_substring (remove_periods (token kv)) (test_name baseName tc) = true.
Proof.
  intros H. unfold test_name.
  destruct (concat_contains "_" (token kv) (map token tc)) as (pre & post & ->).
  { apply in_map_iff. by exists kv. }
  rewrite !remove_periods_app, <- !append_assoc, append_assoc.
  apply is_substring_app.
Qed.

Lemma remove_periods_concat (l : list string) :
  remove_periods (String.concat "_" l) = String.concat "_" (map remove_periods l).
Proof.
  induction l as [|a l IH]; [reflexivity|].
  destruct l as [|b l]; [reflexivity|].
  rewrite concat_unfold, !remove_periods_app, IH. reflexivity.
Qed.

Lemma remove_periods_token (k : string) (v : pvalue) :
  remove_periods (token (k, v)) = remove_periods k +:+ "_" +:+ rendered v.
Proof. unfold token. by rewrite !remove_periods_app. Qed.

Lemma has_char_remove_periods (c : ascii) (s : string) :
  has_char c s = false -> has_char c (remove_periods s) = false.
Proof.
  induction s as [|x s IH]; [done|]. simpl. intros H.
  apply orb_false_iff in H as [H1 H2].
  destruct (Ascii.eqb x "."); [by apply IH|]. simpl. by rewrite H1, IH.
Qed.

Lemma append_inv_head (a x y : string) : a +:+ x = a +:+ y -> x = y.
Proof.
  induction a as [|c a IH]; [done|].
  rewrite !append_String. intros [= H]. by apply IH.
Qed.

(** Two strings without underscore, each followed by an underscore: equal
    wholes have equal parts. *)
Lemma split_at_underscore (a a' r r' : string) :
  has_char "_" a = false -> has_char "_" a' = false ->
  a +:+ "_" +:+ r = a' +:+ "_" +:+ r' -> a = a' /\ r = r'.
Proof.
  revert a'. induction a as [|x a IH]; intros [|y a'] Ha Ha';
    rewrite ?append_String, ?append_empty_l; intros E.
  - by injection E as ->.
  - injection E as <- _. simpl in Ha'. discriminate.
  - injection E as -> _. simpl in Ha. discriminate.
  - injection E as <- E. simpl in Ha, Ha'.
    apply orb_false_iff in Ha as [_ Ha]. apply orb_false_iff in Ha' as [_ Ha'].
    destruct (IH a' Ha Ha' E) as [-> ->]. done.
Qed.

Lemma distinct_NoDup (l : list string) : distinct l = true -> List.NoDup l.
Proof.
  induction l as [|x l IH]; intros H; [constructor|].
  simpl in H. apply andb_true_iff in H as [H1 H2].
  constructor; [|by apply IH].
  intros Hin. apply negb_true_iff in H1.
  assert (E : existsb (String.eqb x) l = true).
  { apply existsb_exists. exists x. split; [done | apply String.eqb_refl]. }
  congruence.
Qed.

Lemma NoDup_map_injective {A B : Type} (f : A -> B) (l : list A) :
  List.NoDup (map f l) ->
  forall a b, In a l -> In b l -> f a = f b -> a = b.
Proof.
  induction l as [|x l IH]; intros H a b Ha Hb E; [destruct Ha|].
  simpl in H. inversion H as [|? ? Hx Hl]; subst.
  destruct Ha as [->|Ha], Hb as [->|Hb].
  - done.
  - exfalso. apply Hx. rewrite E. by apply in_map.
  - exfalso. apply Hx. rewrite <- E. by apply in_map.
  - by apply IH.
Qed.

(** Under [distinguishable], the part of the name that comes from the
    values determines the values. *)
Lemma names_injective (ps : list (string * list pvalue)) :
  distinguishable ps = true ->
  forall x y,
    Forall2 (fun v d => In v d) x (map snd ps) ->
    Forall2 (fun v d => In v d) y (map snd ps) ->
    String.concat "_" (map (fun kv => remove_periods (token kv))
                           (combine (map fst ps) x))
    = String.concat "_" (map (fun kv => remove_periods (token kv))
                             (combine (map fst ps) y)) ->
    x = y.
Proof.
  induction ps as [|[k d] ps IH]; intros Hd x y Hx Hy E.
  - inversion Hx; inversion Hy; subst. reflexivity.
  - simpl in Hd. apply andb_true_iff in Hd as [Hd Hps].
    apply andb_true_iff in Hd as [Hdist Hund].
    apply distinct_NoDup in Hdist.
    inversion Hx as [|v d1 x' ds1 Hv Hx']; subst.
    inversion Hy as [|w d2 y' ds2 Hw Hy']; subst.
    simpl in Hv, Hw.
    assert (Uv : has_char "_" (rendered v) = false).
    { apply has_char_remove_periods.
      rewrite forallb_forall in Hund. apply negb_true_iff. by apply Hund. }
    assert (Uw : has_char "_" (rendered w) = false).
    { apply has_char_remove_periods.
      rewrite forallb_forall in Hund. apply negb_true_iff. by apply Hund. }
    specialize (IH Hps x' y' Hx' Hy').
    cbn [map fst combine] in E.
    destruct ps as [|[k2 d2] ps].
    + inversion Hx'; inversion Hy'; subst.
      cbn in E. rewrite !remove_periods_token in E.
      do 2 apply append_inv_head in E.
      by rewrite (NoDup_map_injective rendered d Hdist v w Hv Hw E).
    + inversion Hx' as [|v2 ? x'' ? Hv2 Hx'']; subst.
      inversion Hy' as [|w2 ? y'' ? Hw2 Hy'']; subst.
      cbn [map fst combine] in E, IH.
      rewrite !concat_unfold, !remove_periods_token, !append_assoc in E.
      rewrite !remove_periods_token in IH.
      do 2 apply append_inv_head in E.
      destruct (split_at_underscore _ _ _ _ Uv Uw E) as [E1 E2].
      rewrite (NoDup_map_injective rendered d Hdist v w Hv Hw E1).
      by rewrite (IH E2).
Qed.

Lemma test_name_rendered (baseName : string) (tc : list (string * pvalue)) :
  test_name baseName tc =
    baseName +:+ "_" +:+
    String.concat "_" (map (fun kv => remove_periods (token kv)) tc).
Proof. unfold test_name. by rewrite remove_periods_concat, map_map. Qed.

Lemma combine_keys (ps : list (string * list pvalue)) :
  forall x,
    Forall2 (fun v d => In v d) x (map snd ps) ->
    map fst (combine (map fst ps) x) = map fst ps.
Proof.
  induction ps as [|[k d] ps IH]; intros x Hx; [reflexivity|].
  inversion Hx; subst. simpl. f_equal. by apply IH.
Qed.

(** A name without periods is left as it is. *)
Lemma remove_periods_id (s : string) :
  has_char "." s = false -> remove_periods s = s.
Proof.
  induction s as [|c s IH]; [reflexivity|]. cbn [has_char remove_periods].
  intros H. apply orb_false_iff in H as [-> H]. by rewrite IH.
Qed.

Lemma has_char_app (c : ascii) (a b : string) :
  has_char c (a +:+ b) = has_char c a || has_char c b.
Proof.
  induction a as [|x a IH]; [reflexivity|].
  rewrite append_String. cbn [has_char]. rewrite IH. by rewrite orb_assoc.
Qed.

(** Each pair of a test case is a parameter with a value of its domain. *)
Lemma in_combine_domain (ps : list (string * list pvalue)) :
  forall x kv,
    Forall2 (fun v d => In v d) x (map snd ps) ->
    In kv (combine (map fst ps) x) ->
    exists d, In (fst kv, d) ps /\ In (snd kv) d.
Proof.
  induction ps as [|[k d] ps IH]; intros x kv Hx Hkv; [destruct Hkv|].
  inversion Hx as [|v d' x' ds Hv Hx' E1 E2]; subst.
  cbn [map fst combine] in Hkv. destruct Hkv as [<-|Hkv].
  - exists d. split; [by left | done].
  - destruct (IH x' kv Hx' Hkv) as (d0 & H1 & H2).
    exists d0. split; [by right | done].
Qed.

Lemma token_period_free (ps : list (string * list pvalue))
    (tc : list (string * pvalue)) (kv : string * pvalue) :
  period_free ps = true -> In tc (testCases ps) -> In kv tc ->
  has_char "." (token kv) = false.
Proof.
  intros Hp Htc Hkv. unfold testCases in Htc.
  apply in_map_iff in Htc as (x & <- & Hx). apply in_product in Hx.
  destruct (in_combine_domain ps x kv Hx Hkv) as (d & Hd & Hv).
  unfold period_free in Hp. rewrite forallb_forall in Hp.
  specialize (Hp _ Hd). cbn [fst snd] in Hp.
  apply andb_true_iff in Hp as [Hk Hvs]. rewrite forallb_forall in Hvs.
  specialize (Hvs _ Hv). apply negb_true_iff in Hk, Hvs.
  unfold token. rewrite !has_char_app, Hk, Hvs. reflexivity.
Qed.

Lemma concat_period_free (l : list string) :
  (forall x, In x l -> has_char "." x = false) ->
  has_char "." (String.concat "_" l) = false.
Proof.
  induction l as [|a l IH]; intros H; [reflexivity|].
  destruct l as [|b l]; [apply H; by left|].
  rewrite concat_unfold, !has_char_app, (H a (or_introl eq_refl)).
  rewrite IH; [reflexivity|]. intros x Hx. apply H. by right.
Qed.

(** Without periods, the name of a test case is the base name and the
    tokens of the test case, joined by underscores. *)
Lemma test_name_period_free (baseName : string) (ps : list (string * list pvalue))
    (tc : list (string * pvalue)) :
  period_free ps = true -> In tc (testCases ps) ->
  test_name baseName tc = baseName +:+ "_" +:+ String.concat "_" (map token tc).
Proof.
  intros Hp Htc. unfold test_name. rewrite remove_periods_id; [reflexivity|].
  apply concat_period_free. intros x Hx.
  apply in_map_iff in Hx as (kv & <- & Hkv).
  by apply (token_period_free ps tc kv).
Qed.

(** The dict of the class after the loop of lines 689-708. *)
Lemma fold_insert_other {A : Type} (f : A -> string) (l : list A) :
  forall (dct : gmap string A) (k : string),
    ~ In k (map f l) ->
    fold_left (fun d a => <[f a := a]> d) l dct !! k = dct !! k.
Proof.
  induction l as [|a l IH]; intros dct k Hk; [reflexivity|].
  cbn [fold_left]. rewrite IH by (intros H; apply Hk; by right).
  apply lookup_insert_ne. intros E. apply Hk. by left.
Qed.

Lemma fold_insert_lookup {A : Type} (f : A -> string) (l : list A) :
  List.NoDup (map f l) ->
  forall (dct : gmap string A) (a : A),
    In a l -> fold_left (fun d a => <[f a := a]> d) l dct !! f a = Some a.
Proof.
  induction l as [|b l IH]; intros Hnd dct a Ha; [destruct Ha|].
  cbn [map] in Hnd. apply List.NoDup_cons_iff in Hnd as [Hb Hnd].
  cbn [fold_left]. destruct Ha as [<-|Ha].
  - rewrite fold_insert_other by done. apply lookup_insert_eq.
  - by apply IH.
Qed.

Lemma fold_insert_dom {A : Type} (f : A -> string) (l : list A) :
  forall dct : gmap string A,
    dom (fold_left (fun d a => <[f a := a]> d) l dct)
    = list_to_set (map f l) ∪ dom dct.
Proof.
  induction l as [|a l IH]; intros dct.
  - cbn. set_solver.
  - cbn [fold_left map]. rewrite IH, dom_insert_L. set_solver.
Qed.

(** As many methods as names, when the names differ. *)
Lemma methods_size (baseName : string) (ps : list (string * list pvalue)) :
  List.NoDup (test_names baseName ps) ->
  size (methods baseName ps) = length (testCases ps).
Proof.
  intros Hnd. unfold methods.
  rewrite <- size_dom, fold_insert_dom, dom_empty_L, union_empty_r_L.
  rewrite size_list_to_set by (by apply NoDup_ListNoDup).
  apply List.length_map.
Qed.

(** C4, as stated, fails.  A name joins a parameter and its value with an
    underscore, so it has no [key=value] token.  And the names of two test
    cases can be equal: with the values ['1_b_2'] and ['1'] for [a] and
    ['3'] and ['2_b_3'] for [b], two of the four test cases are named
    [test_a_1_b_2_b_3], and the class gets three test methods. *)
Lemma test_names_counterexample :
  (forall name,
      In name (test_names "test" [("alpha", [PInt 1])]) ->
      is_substring "alpha=1" name = false) /\
  (let parameters :=
     [("a", [PStr "1_b_2"; PStr "1"]); ("b", [PStr "3"; PStr "2_b_3"])] in
   matrix_size parameters = 4 /\
   ~ List.NoDup (test_names "test" parameters) /\
   size (methods "test" parameters) = 3).
Proof.
  split; [|split; [|split]].
  - intros name [<-|[]]. vm_compute. reflexivity.
  - reflexivity.
  - intros H. vm_compute in H.
    apply List.NoDup_cons_iff in H as [H _]. apply H. right. right. by left.
  - vm_compute. reflexivity.
Qed.

(** C4 (amended): for parameters and values without periods, the generator
    makes one test case for each element of the product of the domains, so
    their number is the product of the sizes of the domains.  Each test
    case gives every parameter a value; its name is the base name followed
    by the tokens of its combination, each a parameter, an underscore and
    the value, all joined by underscores, so that the name contains every
    token.  When, in each domain, the values differ and have no underscore,
    the names differ from one another, and the class gets one test method
    for each test case, as many as the product of the sizes of the
    domains. *)
Theorem test_names_matrix (baseName : string)
    (parameters : list (string * list pvalue)) :
  period_free parameters = true ->
  length (testCases parameters) = matrix_size parameters /\
  (forall tc,
      In tc (testCases parameters) ->
      map fst tc = map fst parameters /\
      test_name baseName tc =
        baseName +:+ "_" +:+ String.concat "_" (map token tc) /\
      forall kv,
        In kv tc -> is_substring (token kv) (test_name baseName tc) = true) /\
  (distinguishable parameters = true ->
   List.NoDup (test_names baseName parameters) /\
   size (methods baseName parameters) = matrix_size parameters /\
   forall tc,
     In tc (testCases parameters) ->
     methods baseName parameters !! test_name baseName tc = Some tc).
Proof.
  intros Hp.
  assert (Hlen : length (testCases parameters) = matrix_size parameters).
  { unfold testCases. by rewrite List.length_map, length_product. }
  split; [exact Hlen|]. split.
  - intros tc Htc. split; [|split].
    + unfold testCases in Htc.
      apply in_map_iff in Htc as (x & <- & Hx). apply in_product in Hx.
      by apply combine_keys.
    + by apply (test_name_period_free baseName parameters).
    + intros kv Hkv.
      rewrite <- (remove_periods_id (token kv))
        by (by apply (token_period_free parameters tc kv)).
      by apply test_name_contains.
  - intros Hd.
    assert (Hnd : List.NoDup (test_names baseName parameters)).
    { unfold test_names, testCases. rewrite map_map.
      apply NoDup_map_NoDup_ForallPairs.
      - intros x y Hx Hy E. apply in_product in Hx, Hy.
        rewrite !test_name_rendered in E. do 2 apply append_inv_head in E.
        exact (names_injective parameters Hd x y Hx Hy E).
      - apply NoDup_product. apply List.Forall_forall. intros d Hin.
        apply in_map_iff in Hin as ([k d'] & <- & Hin).
        unfold distinguishable in Hd. rewrite forallb_forall in Hd.
        specialize (Hd _ Hin). apply andb_true_iff in Hd as [Hd _].
        apply distinct_NoDup in Hd. by apply NoDup_map_inv in Hd. }
    split; [exact Hnd|]. split.
    + by rewrite methods_size.
    + intros tc Htc. unfold methods.
      by apply (fold_insert_lookup (test_name baseName)).
Qed.

(** The matrix of the example in the docstring of the metaclass, cut to
    two and three values. *)
Lemma test_names_matrix_witness :
  size (methods "test_shear"
          [("alpha", [PInt (-40); PInt 0]); ("beta", [PInt 60; PInt 90; PInt 120])])
  = 6.
Proof.
  apply (proj2 (proj2 (test_names_matrix "test_shear"
           [("alpha", [PInt (-40); PInt 0]);
            ("beta", [PInt 60; PInt 90; PInt 120])] eq_refl)) eq_refl).
Defined.

Example test_names_docstring :
  test_names "test_shear"
    [("alpha", [PInt (-40); PInt 0]); ("beta", [PInt 60; PInt 90; PInt 120])]
  = ["test_shear_alpha_-40_beta_60"; "test_shear_alpha_-40_beta_90";
     "test_shear_alpha_-40_beta_120"; "test_shear_alpha_0_beta_60";
     "test_shear_alpha_0_beta_90"; "test_shear_alpha_0_beta_120"].
Proof. vm_compute. reflexivity. Qed.

End NameProperties.

(** * Further properties of the code *)

(** ** The result comparator: the loop over the records and the branch for
    sequences *)

Section ComparatorSequences.
Import Comparator.

Lemma for_each_Ok {A : Type} (body : A -> res unit) (l : list A) :
  for_each body l = Ok tt <-> forall x, In x l -> body x = Ok tt.
Proof.
  induction l as [|x l IH]; simpl.
  - split; [by intros _ y [] | done].
  - destruct (body x) as [[]|e] eqn:E; simpl.
    + rewrite IH. split.
      * intros H y [<-|Hy]; [done | by apply H].
      * intros H y Hy. apply H. by right.
    + split; [discriminate|]. intros H.
      specialize (H x (or_introl eq_refl)). congruence.
Qed.

Lemma for_each_first_Raise {A : Type} (body : A -> res unit)
    (before : list A) (x : A) (rest : list A) (e : exn) :
  (forall y, In y before -> body y = Ok tt) ->
  body x = Raise e ->
  for_each body (before ++ x :: rest)%list = Raise e.
Proof.
  intros Hb Hx. induction before as [|y before IH]; simpl.
  - by rewrite Hx.
  - rewrite (Hb y (or_introl eq_refl)). simpl. apply IH.
    intros z Hz. apply Hb. by right.
Qed.

(** The comparator stops at the first record that raises: the job passes
    exactly when every record passes, and otherwise the job ends with the
    exception of the first record that does not pass, whatever the records
    after it hold. *)
Theorem comparator_fail_fast
    (cwd : string) (files : gmap string (list record)) (jobName : string)
    (results : list record) :
  files !! outputFilePath cwd jobName = Some results ->
  (runAssertionsOnResults cwd files jobName None = Ok tt <->
   forall r, In r results -> assert_record r = Ok tt) /\
  (forall (before : list record) r rest e,
      results = (before ++ r :: rest)%list ->
      (forall r', In r' before -> assert_record r' = Ok tt) ->
      assert_record r = Raise e ->
      runAssertionsOnResults cwd files jobName None = Raise e).
Proof.
  intros H. unfold runAssertionsOnResults. rewrite H. split.
  - apply for_each_Ok.
  - intros before r rest e -> Hb Hr. by apply for_each_first_Raise.
Qed.

Lemma comparator_fail_fast_witness :
  let good : record :=
    {[ "computedValue" := VNum 1; "referenceValue" := VNum 1 ]} in
  let bad : record :=
    {[ "computedValue" := VNum 2; "referenceValue" := VNum 1 ]} in
  let broken : record := ∅ in
  runAssertionsOnResults "/t"
    {[ "/t/testOutput/job_results.py" := [good; bad; broken] ]} "job" None
  = Raise (AssertionError "not equal").
Proof.
  intros good bad broken.
  assert (H : ({[ "/t/testOutput/job_results.py" := [good; bad; broken] ]}
                 : gmap string (list record)) !! outputFilePath "/t" "job"
              = Some [good; bad; broken]) by (vm_compute; reflexivity).
  apply (proj2 (comparator_fail_fast "/t" _ "job" _ H) [good] bad [broken]).
  - reflexivity.
  - intros r' [<-|[]]. vm_compute. reflexivity.
  - vm_compute. reflexivity.
Defined.

Ltac lookup_field :=
  match goal with
  | H : ?r !! ?k = Some ?v |- context [getitem ?r ?k] =>
      rewrite (getitem_Some r k v H)
  | H : ?r !! ?k = None |- context [getitem ?r ?k] =>
      rewrite (getitem_None r k H)
  end; cbn [bind].

(** The element at index [i] of a record whose three fields are lists of
    numbers. *)
Lemma assert_element_numbers (r : record) (cs rs ts : list number) (i : nat) :
  r !! "computedValue" = Some (VList (VNum <$> cs)) ->
  r !! "referenceValue" = Some (VList (VNum <$> rs)) ->
  r !! "tolerance" = Some (VList (VNum <$> ts)) ->
  i < length cs ->
  assert_element r i =
    match rs !! i, ts !! i with
    | None, _ => Raise IndexError
    | Some _, None => Raise IndexError
    | Some rv, Some t =>
        match cs !! i with
        | Some c => assertAlmostEqual (VNum c) (VNum rv) (VNum t)
        | None => Raise IndexError
        end
    end.
Proof.
  intros Hc Hr Ht Hi. unfold assert_element. repeat lookup_field.
  unfold py_index. cbn [py_items bind].
  rewrite !list_lookup_fmap.
  destruct (cs !! i) as [c|] eqn:Ec; [|apply lookup_ge_None in Ec; lia].
  cbn [fmap option_fmap option_map bind].
  destruct (rs !! i) as [rv|]; cbn [fmap option_fmap option_map bind]; [|done].
  cbn [is_tuple].
  by destruct (ts !! i) as [t|]; cbn [fmap option_fmap option_map bind].
Qed.

Lemma assertAlmostEqual_num_Ok (c rv t : number) :
  assertAlmostEqual (VNum c) (VNum rv) (VNum t) = Ok tt <->
  (Number.eqb c rv = true \/
      exists d, Number.sub c rv = Ok d /\ Number.leb (Number.abs d) t = true).
Proof.
  destruct (Number.sub c rv) as [d|e] eqn:Hd.
  - rewrite (assertAlmostEqual_numbers_Ok c rv t d Hd). split.
    + intros [H|H]; [by left | right; by exists d].
    + intros [H|(d' & E & H)]; [by left | right; congruence].
  - unfold assertAlmostEqual. cbn [py_eq within_delta]. rewrite Hd.
    destruct (Number.eqb c rv); cbn [bind].
    + split; [by left | done].
    + split; [discriminate | by intros [H|(d' & E & H)]].
Qed.

Lemma assert_record_list (r : record) (l : list pyval) :
  r !! "computedValue" = Some (VList l) ->
  assert_record r = for_each (assert_element r) (seq 0 (length l)).
Proof.
  intros Hc. unfold assert_record. lookup_field. reflexivity.
Qed.

(** A record whose computed value, reference value and tolerance are lists
    of numbers, the last two at least as long as the first, passes exactly
    when each computed value equals its reference value or the absolute
    value of their difference, as Python computes it, is at most its
    tolerance.  The reference values and tolerances beyond the length
    of the computed list are not looked at. *)
Theorem list_record_elementwise (r : record) (cs rs ts : list number) :
  r !! "computedValue" = Some (VList (VNum <$> cs)) ->
  r !! "referenceValue" = Some (VList (VNum <$> rs)) ->
  r !! "tolerance" = Some (VList (VNum <$> ts)) ->
  length cs <= length rs ->
  length cs <= length ts ->
  (assert_record r = Ok tt <->
   forall i c rv t,
     cs !! i = Some c -> rs !! i = Some rv -> ts !! i = Some t ->
     (Number.eqb c rv = true \/
      exists d, Number.sub c rv = Ok d /\ Number.leb (Number.abs d) t = true)).
Proof.
  intros Hc Hr Ht Lr Lt.
  rewrite (assert_record_list r _ Hc), length_fmap, for_each_Ok.
  split.
  - intros H i c rv t Ec Er Et.
    assert (Hi : i < length cs) by (by apply lookup_lt_Some in Ec).
    specialize (H i ltac:(apply in_seq; lia)).
    rewrite (assert_element_numbers r cs rs ts i Hc Hr Ht Hi), Er, Et, Ec in H.
    by apply assertAlmostEqual_num_Ok.
  - intros H i Hi. apply in_seq in Hi.
    rewrite (assert_element_numbers r cs rs ts i Hc Hr Ht ltac:(lia)).
    destruct (lookup_lt_is_Some_2 cs i ltac:(lia)) as [c Ec].
    destruct (lookup_lt_is_Some_2 rs i ltac:(lia)) as [rv Er].
    destruct (lookup_lt_is_Some_2 ts i ltac:(lia)) as [t Et].
    rewrite Er, Et, Ec. apply assertAlmostEqual_num_Ok. by apply (H i).
Qed.

(** Three computed values against four reference values: the fourth is not
    compared. *)
Lemma list_record_elementwise_witness :
  let cs := [Int 1; Float (Number.decimal 20 1); Int 3] in
  let rs := [Int 1; Float (Number.decimal 205 2); Int 3; Int 1000] in
  let ts := [Int 0; Float (Number.decimal 1 1); Int 0; Int 0] in
  let r : record :=
    {[ "computedValue" := VList (VNum <$> cs);
       "referenceValue" := VList (VNum <$> rs);
       "tolerance" := VList (VNum <$> ts) ]} in
  assert_record r = Ok tt.
Proof.
  intros cs rs ts r.
  apply (list_record_elementwise r cs rs ts);
    [vm_compute; reflexivity .. | simpl; lia | simpl; lia |].
  intros [|[|[|i]]] c rv t Ec Er Et; simpl in *; try discriminate;
    injection Ec as <-; injection Er as <-; injection Et as <-;
    ((left; reflexivity) ||
     (right; eexists; split; [reflexivity | vm_compute; reflexivity])).
Defined.

(** When the list of reference values or the list of tolerances is shorter
    than the list of computed values, and the values they do cover pass,
    the record ends with [IndexError]. *)
Theorem short_reference_or_tolerance (r : record) (cs rs ts : list number) :
  r !! "computedValue" = Some (VList (VNum <$> cs)) ->
  r !! "referenceValue" = Some (VList (VNum <$> rs)) ->
  r !! "tolerance" = Some (VList (VNum <$> ts)) ->
  length rs `min` length ts < length cs ->
  (forall i c rv t,
     cs !! i = Some c -> rs !! i = Some rv -> ts !! i = Some t ->
     (Number.eqb c rv = true \/
      exists d, Number.sub c rv = Ok d /\ Number.leb (Number.abs d) t = true)) ->
  assert_record r = Raise IndexError.
Proof.
  intros Hc Hr Ht Hlen H.
  rewrite (assert_record_list r _ Hc), length_fmap.
  set (n := length rs `min` length ts) in *.
  replace (length cs) with (n + S (length cs - S n)) by lia.
  rewrite seq_app. cbn [seq]. apply for_each_first_Raise.
  - intros i Hi. apply in_seq in Hi.
    rewrite (assert_element_numbers r cs rs ts i Hc Hr Ht ltac:(lia)).
    destruct (lookup_lt_is_Some_2 cs i ltac:(lia)) as [c Ec].
    destruct (lookup_lt_is_Some_2 rs i ltac:(lia)) as [rv Er].
    destruct (lookup_lt_is_Some_2 ts i ltac:(lia)) as [t Et].
    rewrite Er, Et, Ec. apply assertAlmostEqual_num_Ok. by apply (H i).
  - rewrite (assert_element_numbers r cs rs ts (0 + n) Hc Hr Ht ltac:(lia)).
    destruct (rs !! (0 + n)) as [rv|] eqn:Er; [|done].
    destruct (ts !! (0 + n)) as [t|] eqn:Et; [|done].
    apply lookup_lt_Some in Er, Et. lia.
Qed.

Lemma short_reference_or_tolerance_witness :
  let r : record :=
    {[ "computedValue" := VList (VNum <$> [Int 1; Int 2]);
       "referenceValue" := VList (VNum <$> [Int 1]);
       "tolerance" := VList (VNum <$> [Int 0; Int 0]) ]} in
  assert_record r = Raise IndexError.
Proof.
  intros r.
  apply (short_reference_or_tolerance r [Int 1; Int 2] [Int 1] [Int 0; Int 0]);
    [vm_compute; reflexivity .. | simpl; lia |].
  intros [|i] c rv t Ec Er Et; simpl in *; try discriminate.
  injection Ec as <-; injection Er as <-. left. reflexivity.
Defined.

Lemma assert_components_Ok (cs rs ts : list number) :
  length cs = length rs -> length rs = length ts ->
  (assert_components (VNum <$> cs) (VNum <$> rs) (VNum <$> ts) = Ok tt <->
   forall j c rv t,
     cs !! j = Some c -> rs !! j = Some rv -> ts !! j = Some t ->
     (Number.eqb c rv = true \/
      exists d, Number.sub c rv = Ok d /\ Number.leb (Number.abs d) t = true)).
Proof.
  revert rs ts. induction cs as [|c cs IH]; intros [|rv rs] [|t ts] L1 L2;
    try discriminate.
  - split; [intros _ j c rv t Ec; discriminate | done].
  - cbn [fmap list_fmap assert_components].
    destruct (assertAlmostEqual (VNum c) (VNum rv) (VNum t)) as [[]|e] eqn:E;
      cbn [bind].
    + apply assertAlmostEqual_num_Ok in E.
      change (list_fmap number pyval VNum) with (fmap (M:=list) VNum).
      rewrite (IH rs ts) by (simpl in *; lia). split.
      * intros H [|j] c' rv' t' Ec Er Et; simpl in *.
        -- by injection Ec as <-; injection Er as <-; injection Et as <-.
        -- by apply (H j).
      * intros H j c' rv' t' Ec Er Et. by apply (H (S j)).
    + split; [discriminate|]. intros H.
      assert (P : assertAlmostEqual (VNum c) (VNum rv) (VNum t) = Ok tt).
      { apply assertAlmostEqual_num_Ok. by apply (H 0). }
      congruence.
Qed.

(** The element at index [i] when the computed value and the reference value
    at that index are tuples of numbers and the tolerance of the record is
    one tuple of numbers: the two checks of the lengths, then the components
    one by one. *)
Lemma assert_element_tuples (r : record) (cvs rvs : list pyval)
    (cs rs ts : list number) (i : nat) :
  r !! "computedValue" = Some (VList cvs) ->
  r !! "referenceValue" = Some (VList rvs) ->
  r !! "tolerance" = Some (VTuple (VNum <$> ts)) ->
  cvs !! i = Some (VTuple (VNum <$> cs)) ->
  rvs !! i = Some (VTuple (VNum <$> rs)) ->
  assert_element r i =
    if negb (Nat.eqb (length cs) (length rs)) then
      Raise (AssertionError
               "Specified reference value should be same length as Computed value")
    else if negb (Nat.eqb (length rs) (length ts)) then
      Raise (AssertionError
               "Specified tolerance tople should be the same length as the ref")
    else assert_components (VNum <$> cs) (VNum <$> rs) (VNum <$> ts).
Proof.
  intros Hc Hr Ht Ec Er. unfold assert_element. repeat lookup_field.
  unfold py_index. cbn [py_items bind]. rewrite Ec. cbn [bind].
  repeat lookup_field. rewrite Er. cbn [bind is_tuple]. repeat lookup_field.
  cbn [py_len bind is_tuple py_items]. rewrite !length_fmap.
  unfold assertEqual_len.
  destruct (Nat.eqb (length cs) (length rs)); cbn [negb bind]; [|done].
  by destruct (Nat.eqb (length rs) (length ts)).
Qed.

(** A record whose computed and reference values are lists of tuples of
    numbers, with one tuple of tolerances for all of them and all tuples of
    one length, passes exactly when every component of every computed tuple
    equals the component of the reference tuple or differs from it, as
    Python computes the difference, by at most the tolerance of that
    component. *)
Theorem tuple_record_componentwise (r : record) (css rss : list (list number))
    (ts : list number) :
  r !! "computedValue" = Some (VList ((fun cs => VTuple (VNum <$> cs)) <$> css)) ->
  r !! "referenceValue" = Some (VList ((fun rs => VTuple (VNum <$> rs)) <$> rss)) ->
  r !! "tolerance" = Some (VTuple (VNum <$> ts)) ->
  length css <= length rss ->
  (forall i cs rs,
      css !! i = Some cs -> rss !! i = Some rs ->
      length cs = length ts /\ length rs = length ts) ->
  (assert_record r = Ok tt <->
   forall i j cs rs c rv t,
     css !! i = Some cs -> rss !! i = Some rs ->
     cs !! j = Some c -> rs !! j = Some rv -> ts !! j = Some t ->
     (Number.eqb c rv = true \/
      exists d, Number.sub c rv = Ok d /\ Number.leb (Number.abs d) t = true)).
Proof.
  intros Hc Hr Ht Hlen Hshape.
  rewrite (assert_record_list r _ Hc), length_fmap, for_each_Ok.
  assert (Elem : forall i cs rs,
             css !! i = Some cs -> rss !! i = Some rs ->
             assert_element r i =
               assert_components (VNum <$> cs) (VNum <$> rs) (VNum <$> ts)).
  { intros i cs rs Ec Er.
    rewrite (assert_element_tuples r _ _ cs rs ts i Hc Hr Ht)
      by (rewrite list_lookup_fmap; by (rewrite Ec || rewrite Er)).
    destruct (Hshape i cs rs Ec Er) as [L1 L2].
    rewrite L1, L2, Nat.eqb_refl. reflexivity. }
  split.
  - intros H i j cs rs c rv t Ec Er Ecj Erj Etj.
    assert (Hi : i < length css) by (by apply lookup_lt_Some in Ec).
    specialize (H i ltac:(apply in_seq; lia)).
    rewrite (Elem i cs rs Ec Er) in H.
    destruct (Hshape i cs rs Ec Er) as [L1 L2].
    pose proof (proj1 (assert_components_Ok cs rs ts ltac:(lia) ltac:(lia)) H)
      as H'.
    by apply (H' j).
  - intros H i Hi. apply in_seq in Hi.
    destruct (lookup_lt_is_Some_2 css i ltac:(lia)) as [cs Ec].
    destruct (lookup_lt_is_Some_2 rss i ltac:(lia)) as [rs Er].
    rewrite (Elem i cs rs Ec Er).
    destruct (Hshape i cs rs Ec Er) as [L1 L2].
    apply (proj2 (assert_components_Ok cs rs ts ltac:(lia) ltac:(lia))).
    intros j c rv t. by apply (H i j cs rs).
Qed.

(** The scenario of the specification: reference (1.0, 2.0), tolerance
    (0.1, 0.1), computed (1.05, 2.2) does not pass. *)
Lemma tuple_record_componentwise_witness :
  let cs := [Float (Number.decimal 105 2); Float (Number.decimal 22 1)] in
  let rs := [Float (Number.decimal 10 1); Float (Number.decimal 20 1)] in
  let ts := [Float (Number.decimal 1 1); Float (Number.decimal 1 1)] in
  let r : record :=
    {[ "computedValue" := VList [VTuple (VNum <$> cs)];
       "referenceValue" := VList [VTuple (VNum <$> rs)];
       "tolerance" := VTuple (VNum <$> ts) ]} in
  assert_record r <> Ok tt.
Proof.
  intros cs rs ts r H.
  eassert (P : assert_record r = Ok tt <-> _).
  { apply (tuple_record_componentwise r [cs] [rs] ts);
      [vm_compute; reflexivity .. | simpl; lia |].
    intros [|i] cs' rs' Ec Er; simpl in *; [|discriminate].
    injection Ec as <-; injection Er as <-. split; reflexivity. }
  destruct (proj1 P H 0 1 cs rs _ _ _ eq_refl eq_refl eq_refl eq_refl eq_refl)
    as [E|(d & E & L)]; [vm_compute in E; discriminate|].
  vm_compute in E. injection E as <-. vm_compute in L. discriminate.
Defined.

(** When at some index the computed value and the reference value are
    tuples of different lengths, and the elements before it pass, the record
    fails with the message about the length of the reference value,
    whatever the tuples hold. *)
Theorem tuple_length_mismatch (r : record) (cvs rvs cs rs : list pyval)
    (tol : pyval) (i : nat) :
  r !! "computedValue" = Some (VList cvs) ->
  r !! "referenceValue" = Some (VList rvs) ->
  r !! "tolerance" = Some tol ->
  cvs !! i = Some (VTuple cs) ->
  rvs !! i = Some (VTuple rs) ->
  length cs <> length rs ->
  (forall j, j < i -> assert_element r j = Ok tt) ->
  assert_record r =
    Raise (AssertionError
             "Specified reference value should be same length as Computed value").
Proof.
  intros Hc Hr Ht Ec Er Hne Hbefore.
  rewrite (assert_record_list r _ Hc).
  assert (Hi : i < length cvs) by (by apply lookup_lt_Some in Ec).
  replace (length cvs) with (i + S (length cvs - S i)) by lia.
  rewrite seq_app. cbn [seq]. apply for_each_first_Raise.
  - intros j Hj. apply in_seq in Hj. apply Hbefore. lia.
  - cbn [Nat.add]. unfold assert_element. repeat lookup_field.
    unfold py_index. cbn [py_items bind]. rewrite Ec. cbn [bind].
    repeat lookup_field. rewrite Er. cbn [bind is_tuple]. repeat lookup_field.
    cbn [py_len bind]. unfold assertEqual_len.
    apply Nat.eqb_neq in Hne. by rewrite Hne.
Qed.

Lemma tuple_length_mismatch_witness :
  let r : record :=
    {[ "computedValue" := VList [VTuple [VNum 1; VNum 2; VNum 3]];
       "referenceValue" := VList [VTuple [VNum 1; VNum 2]];
       "tolerance" := VTuple [VNum 1; VNum 1] ]} in
  assert_record r =
    Raise (AssertionError
             "Specified reference value should be same length as Computed value").
Proof.
  intros r.
  apply (tuple_length_mismatch r [VTuple [VNum 1; VNum 2; VNum 3]]
           [VTuple [VNum 1; VNum 2]] [VNum 1; VNum 2; VNum 3] [VNum 1; VNum 2]
           (VTuple [VNum 1; VNum 1]) 0);
    [vm_compute; reflexivity .. | reflexivity | reflexivity | simpl; lia | intros j Hj; lia].
Defined.

End ComparatorSequences.

(** ** The run-time instrumentation: measured durations *)

Section TimerDurations.
Import Timer.

Lemma feed_quiet (st : state) (stream : list (string * Q)) :
  quiet stream = true ->
  feed st stream = {| after := st; reports := []; raised := None |}.
Proof.
  induction stream as [|[l t] stream IH]; intros H; [reflexivity|].
  simpl in H. apply andb_true_iff in H as [Hl H].
  apply bool_decide_eq_true in Hl. simpl in Hl.
  cbn [feed]. unfold processLine. rewrite Hl. cbn [raised after reports].
  by rewrite (IH H).
Qed.

(** Feeding two streams one after the other, when the first raises
    nothing. *)
Lemma feed_app (st : state) (s1 s2 : list (string * Q)) :
  raised (feed st s1) = None ->
  feed st (s1 ++ s2)%list =
    {| after := after (feed (after (feed st s1)) s2);
       reports := (reports (feed st s1) ++ reports (feed (after (feed st s1)) s2))%list;
       raised := raised (feed (after (feed st s1)) s2) |}.
Proof.
  revert st. induction s1 as [|[l t] s1 IH]; intros st H.
  - simpl. by destruct (feed st s2).
  - cbn [feed app] in *.
    destruct (raised (processLine st l t)) eqn:E; [by rewrite E in H|].
    cbn [raised after reports] in *. rewrite (IH _ H).
    cbn [raised after reports]. by rewrite app_assoc.
Qed.

Lemma start_of_set_start (ph : phase) (now : Q) (st : state) :
  start_of ph (set_start ph now st) = Some now.
Proof. by destruct ph. Qed.

(** The time of a phase: after lines that are no markers, a begin marker at
    time [t0], more lines that are no markers and the end marker of the
    phase at time [t1], the timer has reported one duration, [t1 - t0] for
    that phase, and has raised nothing, whatever it held before. *)
Theorem begin_end_reports_duration (ph : phase) (st : state)
    (before : list (string * Q)) (lb : string) (t0 : Q)
    (between : list (string * Q)) (le : string) (t1 : Q) :
  quiet before = true ->
  marker_of lb = Some (Begin ph) ->
  quiet between = true ->
  marker_of le = Some (End ph) ->
  let e := feed st (before ++ (lb, t0) :: between ++ [(le, t1)])%list in
  reports e = [(ph, (t1 - t0)%Q)] /\ raised e = None.
Proof.
  intros Hb Hlb Hm Hle e. subst e.
  rewrite feed_app by (by rewrite (feed_quiet st before Hb)).
  rewrite (feed_quiet st before Hb). cbn [after reports raised app].
  change ((lb, t0) :: between ++ [(le, t1)])%list
    with ([(lb, t0)] ++ between ++ [(le, t1)])%list.
  assert (B : feed st [(lb, t0)] =
              {| after := set_start ph t0 st; reports := []; raised := None |}).
  { cbn [feed]. unfold processLine. rewrite Hlb. reflexivity. }
  rewrite feed_app by (by rewrite B). rewrite B. cbn [after reports raised app].
  rewrite feed_app by (by rewrite (feed_quiet _ between Hm)).
  rewrite (feed_quiet _ between Hm). cbn [after reports raised app].
  cbn [feed]. unfold processLine. rewrite Hle.
  rewrite start_of_set_end, start_of_set_start. cbn [elapsed].
  cbn [raised after reports]. by rewrite app_nil_r.
Qed.

Lemma begin_end_reports_duration_witness :
  reports (feed init ([("Abaqus JOB test_CPS4R_tension", 1%Q)]
                        ++ ("Begin Abaqus/Explicit Analysis", 2%Q)
                        :: [("  step 1", 3%Q)]
                        ++ [("End Abaqus/Explicit Analysis", 9%Q)])%list)
    = [(Solver, (9 - 2)%Q)] /\
  raised (feed init ([("Abaqus JOB test_CPS4R_tension", 1%Q)]
                       ++ ("Begin Abaqus/Explicit Analysis", 2%Q)
                       :: [("  step 1", 3%Q)]
                       ++ [("End Abaqus/Explicit Analysis", 9%Q)])%list)
    = None.
Proof.
  apply (begin_end_reports_duration Solver init
           [("Abaqus JOB test_CPS4R_tension", 1%Q)]
           "Begin Abaqus/Explicit Analysis" 2%Q [("  step 1", 3%Q)]
           "End Abaqus/Explicit Analysis" 9%Q); reflexivity.
Defined.

Lemma first_line_app (a s : string) :
  Parametric.no_LF a = true -> first_line (a +:+ s) = a +:+ first_line s.
Proof.
  induction a as [|c a IH]; intros H; [reflexivity|].
  simpl in H. apply andb_true_iff in H as [Hc H].
  rewrite !append_String. cbn [first_line].
  apply negb_true_iff in Hc. rewrite Hc. by rewrite IH.
Qed.

(** A line that holds the text of the error of the solver, with no line
    feed before it, takes the branch that ends the solver phase, unless it
    starts with one of the five markers tested before. *)
Theorem error_line_ends_solver (a b : string) :
  let line := a +:+ "Abaqus/Explicit Analysis exited with an error" +:+ b in
  Parametric.no_LF a = true ->
  forallb (fun m => negb (String.prefix m line)) earlier_patterns = true ->
  marker_of line = Some (End Solver).
Proof.
  intros line Ha Hp. unfold earlier_patterns in Hp. cbn [forallb] in Hp.
  repeat (apply andb_true_iff in Hp as [?%negb_true_iff Hp]).
  unfold marker_of, re_match_literal, re_match_anywhere.
  repeat match goal with H : String.prefix _ line = false |- _ => rewrite H; clear H end.
  assert (E : is_substring "Abaqus/Explicit Analysis exited with an error"
                (first_line line) = true).
  { unfold line. rewrite (first_line_app a _ Ha).
    rewrite (first_line_app "Abaqus/Explicit Analysis exited with an error" b eq_refl).
    apply is_substring_app. }
  rewrite E, orb_true_r. reflexivity.
Qed.

Lemma error_line_ends_solver_witness :
  marker_of ("Abaqus Error: " +:+ "Abaqus/Explicit Analysis exited with an error"
               +:+ " - Please see the status file") = Some (End Solver).
Proof.
  apply (error_line_ends_solver "Abaqus Error: " " - Please see the status file");
    reflexivity.
Defined.

End TimerDurations.

(** ** The line streamer and the log of a call *)

Section CallAbaqusProperties.
Import Streamer CallAbaqus.

(** As long as the process is not seen to have exited, the generator does
    not end: once the stream is at its end, every [read(1)] returns the
    empty string, which is no delimiter. *)
Theorem outputStreamer_needs_exit (fuel : nat) (s : string) :
  outputStreamer fuel None s = None.
Proof.
  revert s. induction fuel as [|fuel IH]; intros s; [reflexivity|].
  cbn [outputStreamer]. destruct (read1 s) as [last s1].
  assert (E : at_end last None = (false, None))
    by (unfold at_end; by destruct (String.eqb last "")).
  rewrite E.
  destruct (read_line fuel None "" last s1) as [[[out s2] p]|] eqn:R;
    [|reflexivity].
  apply read_line_never_exits in R. subst p. by rewrite IH.
Qed.

Lemma has_newline_app (a b : string) :
  has_newline (a +:+ b) = has_newline a || has_newline b.
Proof.
  induction a as [|c a IH]; [reflexivity|].
  rewrite append_String. cbn [has_newline]. rewrite IH. by rewrite orb_assoc.
Qed.

(** The inner loop adds to the line no character that is a delimiter. *)
Lemma read_line_clean (fuel : nat) :
  forall (p : option nat) (out last s : string) r,
    read_line fuel p out last s = Some r ->
    has_newline out = false -> String.length last <= 1 ->
    has_newline (fst (fst r)) = false.
Proof.
  induction fuel as [|fuel IH]; intros p out last s r H Hout Hlast;
    [discriminate|].
  cbn [read_line] in H.
  destruct (in_newlines last) eqn:Hn; [by injection H as <-|].
  destruct (at_end last p) as [exited p']. destruct exited; [by injection H as <-|].
  destruct (read1 s) as [last' s'] eqn:Hr.
  apply IH in H; [exact H | |].
  - rewrite has_newline_app, Hout. cbn [orb].
    destruct last as [|c [|c' last]]; [reflexivity| |simpl in Hlast; lia].
    rewrite in_newlines_char in Hn. cbn [has_newline]. by rewrite Hn.
  - destruct s; cbn [read1] in Hr; injection Hr as <- <-; simpl; lia.
Qed.

Lemma outputStreamer_clean (fuel : nat) :
  forall (p : option nat) (s : string) (ls : list string),
    outputStreamer fuel p s = Some ls ->
    forall l, In l ls -> has_newline l = false.
Proof.
  induction fuel as [|fuel IH]; intros p s ls H l Hl; [discriminate|].
  cbn [outputStreamer] in H. destruct (read1 s) as [last s1] eqn:Hr.
  destruct (at_end last p) as [exited p1].
  destruct exited; [injection H as <-; destruct Hl|].
  destruct (read_line fuel p1 "" last s1) as [[[out s2] p2]|] eqn:R;
    [|discriminate].
  destruct (outputStreamer fuel p2 s2) as [ls'|] eqn:E;
    cbn [option_map] in H; [|discriminate].
  injection H as <-. destruct Hl as [<-|Hl].
  - apply (read_line_clean fuel p1 "" last s1 _ R); [reflexivity|].
    destruct s; cbn [read1] in Hr; injection Hr as <- <-; simpl; lia.
  - by apply (IH p2 s2 ls' E).
Qed.

Lemma has_newline_In (l : string) (c : ascii) :
  has_newline l = false -> In c (list_ascii_of_string l) -> is_newline c = false.
Proof.
  induction l as [|x l IH]; intros H Hc; [destruct Hc|].
  cbn [has_newline] in H. apply orb_false_iff in H as [Hx H].
  destruct Hc as [<-|Hc]; [exact Hx | by apply IH].
Qed.

(** No line the streamer yields holds a line feed or a carriage return,
    whenever the process is seen to exit. *)
Theorem outputStreamer_lines_clean (fuel : nat) (pending : option nat)
    (s : string) (ls : list string) :
  outputStreamer fuel pending s = Some ls ->
  forall l c, In l ls -> In c (list_ascii_of_string l) -> c <> LF /\ c <> CR.
Proof.
  intros H l c Hl Hc.
  pose proof (outputStreamer_clean fuel pending s ls H l Hl) as N.
  apply (has_newline_In l c N) in Hc.
  unfold is_newline in Hc. apply orb_false_iff in Hc as [N1 N2].
  by apply Ascii.eqb_neq in N1, N2.
Qed.

Lemma outputStreamer_lines_clean_witness :
  outputStreamer 10 (Some 2) ("ab" +:+ String CR (String LF "cd"))
  = Some ["ab"; ""; "cd"] /\
  ("d"%char <> LF /\ "d"%char <> CR).
Proof.
  split; [reflexivity|].
  apply (outputStreamer_lines_clean 10 (Some 2)
           ("ab" +:+ String CR (String LF "cd"))
           ["ab"; ""; "cd"] eq_refl "cd" "d"%char).
  - right. right. left. reflexivity.
  - right. left. reflexivity.
Defined.

(** The text that writing each line with a line feed after it adds to the
    log. *)
Local Abbreviation text_of lines :=
  (fold_right (fun l acc => l +:+ String LF EmptyString +:+ acc) EmptyString lines).

Lemma write_lines_untimed (time interactive : bool) (timer : option Timer.state) :
  time = false \/ timer = None ->
  forall (lines : list (string * Q)) (log0 : string),
    write_lines time interactive timer lines log0 =
      {| log := log0 +:+ text_of (map fst lines);
         console := if interactive then map fst lines else [];
         timer := timer; durations := []; raised := None |}.
Proof.
  intros H lines. induction lines as [|[l t] lines IH]; intros log0.
  - cbn. rewrite append_empty_r. by destruct interactive.
  - cbn [write_lines].
    assert (E : (if time then match timer with
                              | Some st => Some (Timer.processLine st l t)
                              | None => None
                              end
                 else None) = None) by (by destruct H as [-> | ->]; [|destruct time]).
    rewrite E, IH. cbn [log console CallAbaqus.timer durations raised map fst fold_right app].
    rewrite !append_assoc. by destruct interactive.
Qed.

Lemma imap_fst {A B : Type} (f : nat -> B) (l : list A) :
  map fst (imap (fun i x => (x, f i)) l) = l.
Proof.
  revert f. induction l as [|x l IH]; intros f; [reflexivity|].
  cbn. f_equal. apply (IH (f ∘ S)).
Qed.

Lemma universal_newlines_no_CR (n : nat) :
  forall raw, String.length raw <= n ->
              Parametric.has_char CR (universal_newlines raw) = false.
Proof.
  induction n as [|n IH]; intros raw Hn.
  - destruct raw; simpl in *; [reflexivity | lia].
  - destruct raw as [|c raw]; [reflexivity|]. simpl in Hn.
    cbn [universal_newlines].
    destruct (Ascii.eqb c CR) eqn:Ec.
    + destruct raw as [|c' raw]; [reflexivity|]. simpl in Hn.
      destruct (Ascii.eqb c' LF); cbn [Parametric.has_char];
        change (Ascii.eqb LF CR) with false; cbn [orb]; apply IH; simpl; lia.
    + cbn [Parametric.has_char]. rewrite Ec. cbn [orb]. apply IH. lia.
Qed.

Lemma with_final_LF_String (c : ascii) (c' : ascii) (s : string) :
  with_final_LF (String c (String c' s)) = String c (with_final_LF (String c' s)).
Proof. reflexivity. Qed.

(** Split at the line feeds and written back line by line, a text without
    carriage returns is itself, with a line feed at its end. *)
Lemma text_of_split_chars (s : string) :
  Parametric.has_char CR s = false ->
  text_of (split_chars s) = with_final_LF s.
Proof.
  induction s as [|c s IH]; intros H; [reflexivity|].
  cbn [Parametric.has_char] in H. apply orb_false_iff in H as [Hc H].
  specialize (IH H). cbn [split_chars]. unfold is_newline. rewrite Hc, orb_false_r.
  destruct (Ascii.eqb c LF) eqn:El.
  - apply Ascii.eqb_eq in El. subst c. cbn [fold_right]. rewrite IH.
    rewrite append_empty_l, append_char.
    destruct s as [|c' s]; [reflexivity|]. by rewrite with_final_LF_String.
  - destruct s as [|c' s].
    + cbn. by rewrite El.
    + rewrite with_final_LF_String, <- IH.
      destruct (split_chars (String c' s)) as [|l ls] eqn:E.
      * exfalso. cbn [split_chars] in E. destruct (is_newline c'); [discriminate|].
        unfold cons_char in E. by destruct (split_chars s).
      * cbn [cons_char fold_right]. by rewrite append_String.
Qed.

Lemma text_of_app (l1 l2 : list string) :
  text_of (l1 ++ l2)%list = text_of l1 +:+ text_of l2.
Proof.
  induction l1 as [|l l1 IH]; [reflexivity|].
  cbn [app fold_right]. by rewrite IH, !append_assoc.
Qed.

(** The log of a call.  When the timer is not in use (the [time] option is
    off, or no timer is given), a call on a process that exits raises
    nothing and adds to the log the whole output of the process, with each
    of the three delimiters written as a line feed and with a line feed
    after a last line that had none; with the [interactive] option the same
    lines go to the console.  When the output ends between two lines and
    its end is read before the process is seen to have exited, one more
    line is written, which is empty. *)
Theorem callAbaqus_log (fuel pending : nat) (time interactive : bool)
    (timer : option Timer.state) (raw : string) (clock : nat -> Q)
    (log0 : string) :
  time = false \/ timer = None ->
  String.length raw + pending + 2 <= fuel ->
  exists e,
    callAbaqus fuel pending time interactive timer raw clock log0 = Some e /\
    raised e = None /\
    log e = log0 +:+ with_final_LF (universal_newlines raw)
              +:+ (if ends_line (universal_newlines raw)
                      && negb (Nat.eqb pending 0)
                   then String LF EmptyString else EmptyString) /\
    console e =
      (if interactive
       then (spec_lines raw ++ trailing pending (universal_newlines raw))%list
       else []) /\
    CallAbaqus.timer e = timer.
Proof.
  intros Ht Hf. unfold callAbaqus.
  pose proof (universal_newlines_length _ raw (le_n _)) as Hlen.
  rewrite (outputStreamer_exits (String.length raw)) by lia.
  rewrite (write_lines_untimed time interactive timer Ht).
  eexists. split; [reflexivity|]. cbn [log console CallAbaqus.timer raised].
  rewrite imap_fst, text_of_app.
  rewrite text_of_split_chars
    by (by apply (universal_newlines_no_CR (String.length raw))).
  rewrite (split_chars_universal_newlines (String.length raw)) by done.
  split; [done|]. split; [|done].
  unfold trailing.
  by destruct (ends_line (universal_newlines raw) && negb (Nat.eqb pending 0)).
Qed.

Lemma callAbaqus_log_witness :
  exists e,
    callAbaqus 20 1 false true None
      ("Begin" +:+ String CR (String LF "run") +:+ String CR "")
      (fun _ => 0%Q) "" = Some e /\
    raised e = None /\
    log e = "Begin" +:+ String LF "run" +:+ String LF (String LF "") /\
    console e = ["Begin"; "run"; ""] /\
    CallAbaqus.timer e = None.
Proof.
  apply (callAbaqus_log 20 1 false true None
           ("Begin" +:+ String CR (String LF "run") +:+ String CR "")
           (fun _ => 0%Q) "").
  - by left.
  - vm_compute. lia.
Defined.

(** With the timer in use, an end marker of a phase that has no start ends
    the call with [TypeError] before the line is written: the log holds the
    lines before the marker and neither the marker nor any line after
    it. *)
Theorem callAbaqus_log_cut_at_end_marker (interactive : bool) (st : Timer.state)
    (ph : Timer.phase) (before : list (string * Q)) (line : string) (now : Q)
    (rest : list (string * Q)) (log0 : string) :
  Timer.quiet before = true ->
  Timer.marker_of line = Some (Timer.End ph) ->
  Timer.start_of ph st = None ->
  let e := write_lines true interactive (Some st)
             (before ++ (line, now) :: rest)%list log0 in
  raised e = Some TypeError /\
  log e = log0 +:+ text_of (map fst before) /\
  console e = (if interactive then map fst before else []).
Proof.
  intros Hq Hm Hs. revert log0.
  induction before as [|[l t] before IH]; intros log0.
  - cbn [app write_lines map fold_right].
    rewrite (processLine_end_without_start ph st line now Hm Hs).
    cbn. rewrite append_empty_r. by destruct interactive.
  - simpl in Hq. apply andb_true_iff in Hq as [Hl Hq].
    apply bool_decide_eq_true in Hl. simpl in Hl.
    specialize (IH Hq).
    assert (P : Timer.processLine st l t =
                {| Timer.after := st; Timer.reports := []; Timer.raised := None |})
      by (unfold Timer.processLine; by rewrite Hl).
    cbn [app write_lines]. rewrite P.
    cbn [Timer.raised Timer.after Timer.reports].
    destruct (IH (log0 +:+ l +:+ String LF "")) as (I1 & I2 & I3).
    cbn [log console raised map fst fold_right].
    rewrite I1, I2, I3, !append_assoc. by destruct interactive.
Qed.

Lemma callAbaqus_log_cut_at_end_marker_witness :
  log (write_lines true false (Some Timer.init)
         ([("Abaqus JOB job", 1%Q)] ++ ("End Linking", 2%Q)
            :: [("Begin Abaqus/Explicit Packager", 3%Q)])%list "")
  = "" +:+ ("Abaqus JOB job" +:+ String LF "" +:+ "").
Proof.
  apply (callAbaqus_log_cut_at_end_marker false Timer.init Timer.Compile
           [("Abaqus JOB job", 1%Q)] "End Linking" 2%Q
           [("Begin Abaqus/Explicit Packager", 3%Q)] ""); reflexivity.
Defined.

End CallAbaqusProperties.

(** ** The parametric test generator: the matrix, the templates and the
    clean-up *)

Section ParametricMore.
Import Parametric.

Lemma product_complete {A : Type} (domains : list (list A)) :
  forall combo,
    Forall2 (fun v d => In v d) combo domains -> In combo (product domains).
Proof.
  induction domains as [|d ds IH]; intros combo H.
  - inversion H; subst. by left.
  - inversion H as [|v ? c ? Hv Hc]; subst. cbn [product].
    apply in_flat_map. exists v. split; [done|].
    apply in_map. by apply IH.
Qed.

Lemma combine_fst_snd {A B : Type} (l : list (A * B)) :
  combine (map fst l) (map snd l) = l.
Proof. induction l as [|[a b] l IH]; [reflexivity|]. cbn. by rewrite IH. Qed.

Lemma combine_snd {A B : Type} (ks : list A) (vs : list B) :
  length ks = length vs -> map snd (combine ks vs) = vs.
Proof.
  revert vs. induction ks as [|k ks IH]; intros [|v vs] H; try discriminate;
    [reflexivity|].
  cbn. f_equal. apply IH. by injection H.
Qed.

(** The test cases are the assignments of values to the parameters: a list
    of pairs is a test case exactly when it names the parameters in their
    order and gives each a value of its domain. *)
Theorem testCases_are_assignments (parameters : list (string * list pvalue))
    (tc : list (string * pvalue)) :
  In tc (testCases parameters) <->
  map fst tc = map fst parameters /\
  Forall2 (fun v d => In v d) (map snd tc) (map snd parameters).
Proof.
  unfold testCases. rewrite in_map_iff. split.
  - intros (combo & <- & H). apply in_product in H.
    assert (L : length (map fst parameters) = length combo).
    { apply Forall2_length in H. by rewrite !length_map in *. }
    split; [by apply combine_keys|]. by rewrite combine_snd.
  - intros [Hk Hv]. exists (map snd tc). split.
    + rewrite <- Hk. apply combine_fst_snd.
    + by apply product_complete.
Qed.

Lemma matrix_size_zero (parameters : list (string * list pvalue)) :
  matrix_size parameters = 0 <-> exists k, In (k, []) parameters.
Proof.
  induction parameters as [|[k d] ps IH]; cbn [matrix_size fold_right snd].
  - split; [discriminate | by intros [k []]].
  - fold (matrix_size ps). split.
    + intros H. apply Nat.eq_mul_0 in H as [H|H].
      * exists k. left. by destruct d.
      * destruct (proj1 IH H) as [k' Hk']. exists k'. by right.
    + intros [k' [E|Hin]].
      * injection E as -> ->. reflexivity.
      * rewrite (proj2 IH (ex_intro _ k' Hin)). lia.
Qed.

(** A parameter with an empty domain leaves no test at all, and that is the
    one way to get none: without parameters there is one test. *)
Theorem no_tests_iff_empty_domain (baseName : string)
    (parameters : list (string * list pvalue)) :
  test_names baseName parameters = [] <-> exists k, In (k, []) parameters.
Proof.
  rewrite <- matrix_size_zero, <- length_product. split.
  - intros H. apply (f_equal (@length string)) in H.
    unfold test_names, testCases in H. by rewrite !List.length_map in H.
  - intros H. apply length_zero_iff_nil.
    unfold test_names, testCases. by rewrite !List.length_map.
Qed.

Lemma substitute_other_line (p value : string) (data : list string)
    (j : nat) (text : string) :
  data !! j = Some text -> line_matches p text = false ->
  substitute p value data !! j = Some text.
Proof.
  intros Hj Hm. rewrite substitute_first_match.
  destruct (first_match p data) as [i|] eqn:E; [|done].
  destruct (first_match_Some p data i E) as (ti & Hi & Hmi & _).
  rewrite Hi. rewrite list_lookup_insert_ne; [done|].
  intros ->. congruence.
Qed.

Lemma substitute_length (p value : string) (data : list string) :
  length (substitute p value data) = length data.
Proof.
  rewrite substitute_first_match.
  destruct (first_match p data) as [i|]; [|done].
  destruct (data !! i); [apply length_insert | done].
Qed.

(** The substitution of all the parameters of a test case keeps the number
    of lines of the template and, the names of the parameters taken
    literally, leaves as it is every line in which no parameter is followed
    by an equals sign. *)
Theorem substitute_all_frame (parameters : list (string * pvalue))
    (data : list string) :
  length (substitute_all parameters data) = length data /\
  (forallb (fun kv => regex_literal (fst kv)) parameters = true ->
   forall j text,
     data !! j = Some text ->
     forallb (fun kv => negb (line_matches (fst kv) text)) parameters = true ->
     substitute_all parameters data !! j = Some text).
Proof.
  unfold substitute_all. revert data.
  induction parameters as [|[p v] ps IH]; intros data; [done|].
  cbn [fold_left fst snd].
  destruct (IH (substitute p (str v) data)) as [IH1 IH2]. split.
  - by rewrite IH1, substitute_length.
  - intros Hl j text Hj Hm. cbn [forallb fst] in Hm, Hl.
    apply andb_true_iff in Hl as [_ Hl].
    apply andb_true_iff in Hm as [Hp Hm]. apply negb_true_iff in Hp.
    apply IH2; [done| |done]. by apply substitute_other_line.
Qed.

Lemma substitute_all_frame_witness :
  substitute_all [("alpha", PInt 10); ("beta", PInt 20)]
    ["*Parameter" +:+ String LF ""; "alpha = 1" +:+ String LF "";
     "gamma = 3" +:+ String LF ""; "beta = 2" +:+ String LF ""] !! 2
  = Some ("gamma = 3" +:+ String LF "").
Proof.
  apply (proj2 (substitute_all_frame [("alpha", PInt 10); ("beta", PInt 20)]
                  ["*Parameter" +:+ String LF ""; "alpha = 1" +:+ String LF "";
                   "gamma = 3" +:+ String LF ""; "beta = 2" +:+ String LF ""]));
    reflexivity.
Defined.

(** A test case whose templates are there and whose run passes: the test
    passes, the generated input deck, expected results file and model script
    are gone, and every other file of the directory is kept.  The name of
    the test case differs from the base name, as the names the generator
    makes do. *)
Theorem test_pass_cleans_up (w : world) (tc : testCase) (fs : files) :
  name tc <> baseName tc ->
  verdict w = Ok tt ->
  (pythonScriptForModel tc = true -> script_writes_inp w = true) ->
  (baseName tc +:+ (if pythonScriptForModel tc then ".py" else ".inp")) ∈ fs ->
  (baseName tc +:+ "_expected.py") ∈ fs ->
  snd (test w tc fs) = Ok tt /\
  ((name tc +:+ ".inp") ∉ fst (test w tc fs)) /\
  ((name tc +:+ "_expected.py") ∉ fst (test w tc fs)) /\
  (pythonScriptForModel tc = true -> (name tc +:+ ".py") ∉ fst (test w tc fs)) /\
  (forall f, f ∈ fs ->
             f <> name tc +:+ ".inp" -> f <> name tc +:+ "_expected.py" ->
             f <> name tc +:+ ".py" -> f ∈ fst (test w tc fs)).
Proof.
  intros _ Hv Hs Hb He.
  assert (N1 : name tc +:+ ".inp" <> name tc +:+ "_expected.py")
    by (intros E; by apply append_inv_head in E).
  assert (N2 : name tc +:+ ".inp" <> name tc +:+ ".py")
    by (intros E; by apply append_inv_head in E).
  assert (N3 : name tc +:+ "_expected.py" <> name tc +:+ ".py")
    by (intros E; by apply append_inv_head in E).
  unfold test, try_block, finally_block, and_then, copyfile, os_remove, skip.
  destruct (pythonScriptForModel tc) eqn:Escript.
  - rewrite (Hs eq_refl). cbn [andb].
    rewrite decide_True by done.
    rewrite decide_True by set_solver.
    rewrite decide_True by set_solver.
    rewrite Hv.
    rewrite decide_True by set_solver.
    rewrite decide_True by set_solver.
    rewrite decide_True by set_solver.
    cbn [fst snd]. repeat split; [set_solver .. |].
    intros f Hf F1 F2 F3. set_solver.
  - cbn [andb].
    rewrite decide_True by done.
    rewrite decide_True by set_solver.
    rewrite decide_True by set_solver.
    rewrite Hv.
    rewrite decide_True by set_solver.
    rewrite decide_True by set_solver.
    cbn [fst snd]. repeat split; [set_solver .. |].
    intros f Hf F1 F2 F3. set_solver.
Qed.

Lemma test_pass_cleans_up_witness :
  let tc := {| name := "job_alpha_1"; baseName := "job";
               pythonScriptForModel := false |} in
  let w := {| script_writes_inp := false; verdict := Ok tt |} in
  let fs : files := {[ "job.inp"; "job_expected.py"; "notes.txt" ]} in
  snd (test w tc fs) = Ok tt.
Proof.
  intros tc w fs.
  apply (test_pass_cleans_up w tc fs);
    [discriminate | reflexivity | discriminate | |];
    apply (bool_decide_unpack _); vm_compute; exact I.
Defined.

End ParametricMore.

(** ** The watchdog of a run *)

Section WatchdogProperties.
Import Expiration RunModel.

Lemma host_check_expiration (para : gmap string pyval) (o : options) :
  host (check_expiration para o) = host o.
Proof. by destruct (check_expiration_frame para o) as (_ & _ & _ & _ & _ & _ & H & _). Qed.

Lemma run_block_timer (o : options) (jobName cmd : string) (e : pyval)
    (outcome : res unit) :
  (forall d j,
      In (TimerStart d j) (fst (run_block o jobName cmd e outcome)) <->
      host o = "localhost" /\ truthy e = true /\ d = e /\ j = jobName) /\
  (In TimerCancel (fst (run_block o jobName cmd e outcome)) <->
   host o = "localhost" /\ truthy e = true /\ outcome = Ok tt) /\
  (In (Chdir "..") (fst (run_block o jobName cmd e outcome)) <->
   host o = "localhost" /\ outcome = Ok tt) /\
  snd (run_block o jobName cmd e outcome) = outcome.
Proof.
  unfold run_block.
  destruct (String.eqb_spec (host o) "localhost") as [Hh|Hh];
    destruct outcome as [[]|ex]; destruct (truthy e);
    cbn [In app fst snd]; repeat split; try intros d j;
    intuition (discriminate || congruence).
Qed.

Lemma truthy_declared (para : gmap string pyval) (o : options) (n : Z) :
  para !! "expiration" = Some (VNum n) ->
  (truthy (expiration (check_expiration para o)) = true <-> (0 < n)%Z) /\
  (truthy (expiration (check_expiration para o)) = true ->
   expiration (check_expiration para o) = VNum n).
Proof.
  intros Hp. unfold check_expiration. rewrite Hp.
  cbn [expiration set_expiration lt_zero].
  unfold Number.ltb. cbn [Number.compare].
  destruct (Z.compare_spec n 0) as [->|Hn|Hn];
    cbn [expiration set_expiration truthy].
  - split; [|done]. split; [discriminate | lia].
  - split; [|discriminate]. split; [discriminate | lia].
  - split; [|done]. unfold Number.eqb. cbn [Number.compare].
    destruct (Z.compare_spec n 0); split; (done || lia).
Qed.

(** A job that declares the integer expiration [n] runs under a timer
    exactly when it runs on the local host and [n] is positive; the timer
    is then set to [n] seconds for this job.  The timer is cancelled, and
    the parent directory made the working directory again, only when the
    call of the solver returns: when the call raises, the block ends with
    that exception, the timer is left running and the working directory is
    still [testOutput].  A negative or zero expiration, or a remote host,
    means no timer. *)
Theorem watchdog_armed_iff (para : gmap string pyval) (o : options)
    (jobName cmd : string) (n : Z) (outcome : res unit) :
  para !! "expiration" = Some (VNum n) ->
  let o' := check_expiration para o in
  let block := run_block o' jobName cmd (expiration o') outcome in
  (In (TimerStart (VNum n) jobName) (fst block) <->
   host o = "localhost" /\ (0 < n)%Z) /\
  (forall d j, In (TimerStart d j) (fst block) -> d = VNum n /\ j = jobName) /\
  (In TimerCancel (fst block) <->
   In (TimerStart (VNum n) jobName) (fst block) /\ outcome = Ok tt) /\
  (In (Chdir "..") (fst block) <-> host o = "localhost" /\ outcome = Ok tt) /\
  snd block = outcome.
Proof.
  intros Hp. cbv zeta.
  destruct (truthy_declared para o n Hp) as [T1 T2].
  destruct (run_block_timer (check_expiration para o) jobName cmd
              (expiration (check_expiration para o)) outcome)
    as (R1 & R2 & R3 & R4).
  rewrite (host_check_expiration para o) in R1, R2, R3.
  split; [|split; [|split; [|split]]].
  - rewrite R1. split.
    + intros (Hh & Ht & _). split; [done | by apply T1].
    + intros [Hh Hq]. apply T1 in Hq. repeat split; try done. by rewrite T2.
  - intros d j H. apply R1 in H as (_ & Ht & -> & ->). by rewrite T2.
  - rewrite R1, R2. split.
    + intros (Hh & Ht & Ho). repeat split; try done. by rewrite T2.
    + by intros ((Hh & Ht & _) & Ho).
  - exact R3.
  - exact R4.
Qed.

(** A job with an expiration of 60 seconds whose solver call raises: the
    timer was started and is not cancelled. *)
Lemma watchdog_armed_iff_witness :
  let para : gmap string pyval := {[ "expiration" := VNum 60 ]} in
  let block :=
    run_block (check_expiration para default_options)
      "job" "abaqus job=job interactive"
      (expiration (check_expiration para default_options)) (Raise TypeError) in
  In (TimerStart (VNum 60) "job") (fst block) /\ ~ In TimerCancel (fst block).
Proof.
  intros para block.
  assert (Hp : para !! "expiration" = Some (VNum 60)) by (vm_compute; reflexivity).
  destruct (watchdog_armed_iff para default_options "job"
              "abaqus job=job interactive" 60 (Raise TypeError) Hp)
    as (W1 & _ & W3 & _).
  split.
  - apply W1. split; [reflexivity | lia].
  - intros H. apply W3 in H as [_ H]. discriminate.
Defined.

End WatchdogProperties.

(** ** The remote host *)

Section RemoteHostProperties.
Import RemoteHost.

Lemma span_app (f : ascii -> bool) (a r : string) :
  all_chars f a = true -> starts_with f r = false ->
  span f (a +:+ r) = (a, r).
Proof.
  intros Ha Hr. induction a as [|c a IH].
  - rewrite append_empty_l. destruct r as [|c r]; [reflexivity|].
    simpl in Hr. cbn [span]. by rewrite Hr.
  - simpl in Ha. apply andb_true_iff in Ha as [Hc Ha].
    rewrite append_String. cbn [span]. by rewrite Hc, (IH Ha).
Qed.

Lemma span_split (f : ascii -> bool) (s : string) :
  s = fst (span f s) +:+ snd (span f s) /\ starts_with f (snd (span f s)) = false.
Proof.
  induction s as [|c s [IH1 IH2]]; [done|].
  cbn [span]. destruct (f c) eqn:E.
  - destruct (span f s) as [a r]. cbn [fst snd] in *.
    split; [by rewrite append_String, <- IH1 | done].
  - cbn [fst snd starts_with]. by rewrite append_empty_l.
Qed.

Lemma no_LF_match_tail (s : string) :
  Parametric.no_LF s = true ->
  Parametric.match_tail s = true /\ drop_final_LF s = s.
Proof.
  induction s as [|c s IH]; intros H; [done|].
  simpl in H. apply andb_true_iff in H as [Hc H].
  apply negb_true_iff in Hc. destruct (IH H) as [IH1 IH2].
  cbn [Parametric.match_tail drop_final_LF]. rewrite Hc.
  split; [done|]. destruct s; [done|]. by rewrite IH2.
Qed.

Lemma String_eqb_nonempty (s : string) : s <> "" -> String.eqb s "" = false.
Proof. intros H. by destruct s. Qed.

(** Reading back a host that was written from its parts.  With a user and a
    host name of class characters, a port of digits and a run directory that
    does not start with a digit, [user@host:port] followed by the directory
    gives back the four parts; without the port, and with a directory that
    starts with neither a class character nor a colon, it gives back the
    three and no port. *)
Theorem match_host_round_trip (u h : string) :
  u <> "" -> all_chars is_host_char u = true ->
  h <> "" -> all_chars is_host_char h = true ->
  (forall p d,
      p <> "" -> all_chars is_digit p = true ->
      starts_with is_digit d = false -> Parametric.no_LF d = true ->
      match_host (u +:+ "@" +:+ h +:+ ":" +:+ p +:+ d) =
        Some {| userName := u; fqdn := h; port := Some p; runDir := d |}) /\
  (forall d,
      starts_with (fun c => is_host_char c || Ascii.eqb c ":") d = false ->
      Parametric.no_LF d = true ->
      match_host (u +:+ "@" +:+ h +:+ d) =
        Some {| userName := u; fqdn := h; port := None; runDir := d |}).
Proof.
  intros Hu Au Hh Ah. split.
  - intros p d Hp Ap Hd Ld. unfold match_host.
    rewrite (span_app is_host_char u ("@" +:+ h +:+ ":" +:+ p +:+ d) Au eq_refl).
    rewrite (String_eqb_nonempty u Hu), append_char.
    change (Ascii.eqb "@" "@") with true. cbn iota.
    rewrite (span_app is_host_char h (":" +:+ p +:+ d) Ah eq_refl).
    rewrite (String_eqb_nonempty h Hh), append_char.
    change (Ascii.eqb ":" ":") with true. cbn iota.
    rewrite (span_app is_digit p d Ap Hd).
    destruct (no_LF_match_tail d Ld) as [-> ->].
    by rewrite (String_eqb_nonempty p Hp).
  - intros d Hd Ld. unfold match_host.
    rewrite (span_app is_host_char u ("@" +:+ h +:+ d) Au eq_refl).
    rewrite (String_eqb_nonempty u Hu), append_char.
    change (Ascii.eqb "@" "@") with true. cbn iota.
    assert (Hd1 : starts_with is_host_char d = false)
      by (destruct d; [done|]; simpl in *; by apply orb_false_iff in Hd as [? _]).
    assert (Hd2 : starts_with is_digit d = false).
    { destruct d as [|c d]; [done|]. simpl in *.
      apply orb_false_iff in Hd1 as [Hd1 _]. apply orb_false_iff in Hd1 as [Hd1 _].
      by apply orb_false_iff in Hd1 as [_ Hd1]. }
    rewrite (span_app is_host_char h d Ah Hd1).
    rewrite (String_eqb_nonempty h Hh).
    assert (E : match d with
                | String c' r => if Ascii.eqb c' ":" then r else d
                | EmptyString => d
                end = d).
    { destruct d as [|c d]; [done|]. simpl in Hd.
      apply orb_false_iff in Hd as [_ Hd]. by rewrite Hd. }
    rewrite E.
    rewrite <- (append_empty_l d) at 1.
    rewrite (span_app is_digit "" d eq_refl Hd2).
    destruct (no_LF_match_tail d Ld) as [-> ->]. reflexivity.
Qed.

Lemma match_host_round_trip_witness :
  match_host ("test.user" +:+ "@" +:+ "k3.larc.nasa.gov" +:+ ":" +:+ "2222"
                +:+ "/scratch/run")
  = Some {| userName := "test.user"; fqdn := "k3.larc.nasa.gov";
            port := Some "2222"; runDir := "/scratch/run" |}.
Proof.
  apply (proj1 (match_host_round_trip "test.user" "k3.larc.nasa.gov"
                  ltac:(discriminate) eq_refl ltac:(discriminate) eq_refl)
           "2222" "/scratch/run"); [discriminate | reflexivity ..].
Defined.

Lemma match_host_without_at (host : string) :
  Parametric.has_char "@" host = false -> match_host host = None.
Proof.
  intros H. unfold match_host.
  destruct (span_split is_host_char host) as [E1 E2].
  destruct (span is_host_char host) as [u r1]. cbn [fst snd] in *.
  destruct (String.eqb u ""); [reflexivity|].
  destruct r1 as [|c r2]; [reflexivity|].
  destruct (Ascii.eqb_spec c "@") as [->|Hc]; [|reflexivity].
  exfalso. subst host. clear E2.
  induction u as [|x u IH].
  - rewrite append_empty_l in H. simpl in H. discriminate.
  - rewrite append_String in H. simpl in H.
    apply orb_false_iff in H as [_ H]. by apply IH.
Qed.

(** A host without an [@].  The host [localhost] is run locally: nothing of
    the set-up of a remote host is done, whatever the setting.  Any other
    host without an [@] is refused: [runTests] raises, and when the checks
    of the options, of the platform and of [paramiko] pass, what it raises
    is the [ValueError] that names the host. *)
Theorem match_host_needs_at (o : Expiration.options) (env : setting)
    (configured : option string) :
  Parametric.has_char "@" (Expiration.host o) = false ->
  match_host (Expiration.host o) = None /\
  (Expiration.host o = "localhost" -> configure o env configured = Ok None) /\
  (Expiration.host o <> "localhost" ->
   (exists e, configure o env configured = Raise e) /\
   (Expiration.precompileCode o = false -> useExistingBinaries env = false ->
    Expiration.useExistingResults o = false ->
    keepExistingOutputFile env = false ->
    windows env = true -> paramiko env = true ->
    configure o env configured =
      Raise (ValueError ("Unable to understand the specified host "
                           +:+ Expiration.host o
                           +:+ "; please use proper formatting.")))).
Proof.
  intros H. pose proof (match_host_without_at _ H) as E.
  split; [exact E|]. unfold configure, resolve_host. rewrite E. split.
  - intros ->. reflexivity.
  - intros Hh. apply String.eqb_neq in Hh. rewrite Hh. cbn [negb]. split.
    + destruct (Expiration.precompileCode o), (useExistingBinaries env),
        (Expiration.useExistingResults o), (keepExistingOutputFile env),
        (windows env), (paramiko env); cbn [negb]; by eexists.
    + by intros -> -> -> -> -> ->.
Qed.

Lemma match_host_needs_at_witness :
  let o := {| Expiration.interactive := false; Expiration.time := false;
              Expiration.precompileCode := false;
              Expiration.useExistingResults := false;
              Expiration.abaqusCmd := "abaqus"; Expiration.cpus := 1;
              Expiration.host := "k3.larc.nasa.gov";
              Expiration.verbose := false; Expiration.double := false;
              Expiration.doNotSave := false;
              Expiration.expiration := VNum (-1) |} in
  let env := {| useExistingBinaries := false; keepExistingOutputFile := false;
                windows := true; paramiko := true |} in
  configure o env None =
    Raise (ValueError
             "Unable to understand the specified host k3.larc.nasa.gov; please use proper formatting.").
Proof.
  intros o env.
  apply (proj2 (proj2 (proj2 (match_host_needs_at o env None eq_refl))
                  ltac:(discriminate)));
    reflexivity.
Defined.

(** What is left out of the host is filled in: without a port the port is
    the number 22, and without a run directory the run directory is the one
    of the remote options, or [abaverify_temp] when they give none.  A run
    directory in the host comes before the one of the remote options. *)
Theorem resolve_host_defaults (configured : option string) (u h : string) :
  u <> "" -> all_chars is_host_char u = true ->
  h <> "" -> all_chars is_host_char h = true ->
  resolve_host configured (u +:+ "@" +:+ h) =
    Some {| target_user := u; target_host := h; target_port := VNum 22;
            remote_run_directory :=
              match configured with
              | Some d => d
              | None => "abaverify_temp"
              end |} /\
  (forall d,
      d <> "" ->
      starts_with (fun c => is_host_char c || Ascii.eqb c ":") d = false ->
      Parametric.no_LF d = true ->
      resolve_host configured (u +:+ "@" +:+ h +:+ d) =
        Some {| target_user := u; target_host := h; target_port := VNum 22;
                remote_run_directory := d |}).
Proof.
  intros Hu Au Hh Ah.
  destruct (match_host_round_trip u h Hu Au Hh Ah) as [_ R]. split.
  - unfold resolve_host. rewrite <- (append_empty_r h) at 1.
    by rewrite (R "" eq_refl eq_refl).
  - intros d Hd Sd Ld. unfold resolve_host. rewrite (R d Sd Ld).
    cbn [userName fqdn port runDir]. by rewrite (String_eqb_nonempty d Hd).
Qed.

Lemma resolve_host_defaults_witness :
  resolve_host (Some "runs") ("user" +:+ "@" +:+ "host")
  = Some {| target_user := "user"; target_host := "host";
            target_port := VNum 22; remote_run_directory := "runs" |}.
Proof.
  apply (proj1 (resolve_host_defaults (Some "runs") "user" "host"
                  ltac:(discriminate) eq_refl ltac:(discriminate) eq_refl)).
Defined.

End RemoteHostProperties.

(** ** The removal of temporary files *)

Section TearDownProperties.
Import TearDown.

(** What [tearDown] never does: it adds no entry, and it leaves every entry
    as it is whose name matches none of the three patterns. *)
Lemma remove_listed_frame (listing : list string) :
  forall (dir : gmap string kind) (f : string),
    (is_temporary f = false -> remove_listed listing dir !! f = dir !! f) /\
    (dir !! f = None -> remove_listed listing dir !! f = None).
Proof.
  induction listing as [|g listing IH]; intros dir f; [done|].
  cbn [remove_listed]. destruct (is_temporary g) eqn:Eg; [|apply IH].
  destruct (dir !! g) as [[|]|] eqn:Ed; [|done|done].
  destruct (IH (delete g dir) f) as [IH1 IH2]. split.
  - intros Hf. rewrite (IH1 Hf). apply lookup_delete_ne. intros ->. congruence.
  - intros Hf. apply IH2. destruct (decide (g = f)) as [->|Hne].
    + apply lookup_delete_eq.
    + by rewrite lookup_delete_ne.
Qed.

Lemma remove_listed_files (listing : list string) :
  forall dir : gmap string kind,
    NoDup listing ->
    (forall f, f ∈ listing -> is_temporary f = true -> dir !! f = Some File) ->
    forall f,
      remove_listed listing dir !! f =
        if is_temporary f && bool_decide (f ∈ listing) then None else dir !! f.
Proof.
  induction listing as [|g listing IH]; intros dir Hnd Hfiles f.
  - cbn [remove_listed]. rewrite bool_decide_eq_false_2 by apply not_elem_of_nil.
    by rewrite andb_false_r.
  - apply NoDup_cons in Hnd as [Hg Hnd]. cbn [remove_listed].
    destruct (is_temporary g) eqn:Eg.
    + rewrite (Hfiles g ltac:(left) Eg).
      rewrite (IH (delete g dir) Hnd).
      * destruct (decide (f = g)) as [->|Hne].
        -- rewrite Eg. rewrite (bool_decide_eq_false_2 _ Hg).
           rewrite (bool_decide_eq_true_2 (g ∈ g :: listing)) by left.
           cbn [andb]. apply lookup_delete_eq.
        -- rewrite lookup_delete_ne by done.
           destruct (is_temporary f); [|done]. cbn [andb].
           destruct (decide (f ∈ listing)) as [Hin|Hin].
           ++ rewrite !bool_decide_eq_true_2; [done | by right | done].
           ++ rewrite !bool_decide_eq_false_2; [done | | done].
              intros Hc. apply elem_of_cons in Hc as [?|?]; done.
      * intros f' Hin Hf'. rewrite lookup_delete_ne by (intros ->; done).
        apply Hfiles; [by right | done].
    + rewrite (IH dir Hnd).
      * destruct (decide (f = g)) as [->|Hne]; [by rewrite Eg|].
        destruct (is_temporary f); [|done]. cbn [andb].
        destruct (decide (f ∈ listing)) as [Hin|Hin].
        -- rewrite !bool_decide_eq_true_2; [done | by right | done].
        -- rewrite !bool_decide_eq_false_2; [done | | done].
           intros Hc. apply elem_of_cons in Hc as [?|?]; done.
      * intros f' Hin Hf'. apply Hfiles; [by right | done].
Qed.

(** [tearDown] adds nothing and touches no entry whose name matches none of
    the three patterns.  When the matching entries are all files, it removes
    exactly them, in whatever order the directory is listed: afterwards the
    directory holds the entries that do not match, and no other. *)
Theorem tearDown_removes_temporaries (listing : list string)
    (dir : gmap string kind) :
  (forall f, is_temporary f = false -> tearDown listing dir !! f = dir !! f) /\
  (forall f, dir !! f = None -> tearDown listing dir !! f = None) /\
  (NoDup listing ->
   (forall f, f ∈ listing <-> is_Some (dir !! f)) ->
   (forall f, is_temporary f = true -> dir !! f <> Some Directory) ->
   forall f, tearDown listing dir !! f = if is_temporary f then None else dir !! f).
Proof.
  unfold tearDown. split; [|split].
  - intros f. apply remove_listed_frame.
  - intros f. apply remove_listed_frame.
  - intros Hnd Hl Hfiles f. rewrite remove_listed_files; [|done|].
    + destruct (is_temporary f); [|done]. cbn [andb].
      destruct (decide (f ∈ listing)) as [Hin|Hin].
      * by rewrite bool_decide_eq_true_2.
      * rewrite bool_decide_eq_false_2 by done.
        destruct (dir !! f) eqn:E; [|done]. exfalso. apply Hin, Hl. by eexists.
    + intros g Hg Hgt. apply Hl in Hg as [[|] Hk]; [done|].
      by destruct (Hfiles g Hgt).
Qed.

Lemma tearDown_removes_temporaries_witness :
  let dir : gmap string kind :=
    {[ "abaqus.rpy" := File; "test_runner.py" := File;
       "test_runner.pyc" := File; "mypyc_notes.txt" := File;
       "testOutput" := Directory ]} in
  tearDown ["testOutput"; "mypyc_notes.txt"; "abaqus.rpy"; "test_runner.py";
            "test_runner.pyc"] dir !! "mypyc_notes.txt" = None.
Proof.
  intros dir.
  apply (proj2 (proj2 (tearDown_removes_temporaries
                         ["testOutput"; "mypyc_notes.txt"; "abaqus.rpy";
                          "test_runner.py"; "test_runner.pyc"] dir))
           ltac:(apply (bool_decide_unpack _); vm_compute; exact I)).
  - intros f. rewrite <- elem_of_dom.
    assert (Hdom : dom dir = list_to_set
              ["testOutput"; "mypyc_notes.txt"; "abaqus.rpy"; "test_runner.py";
               "test_runner.pyc"])
      by (apply (bool_decide_unpack _); vm_compute; exact I).
    rewrite Hdom. symmetry. apply elem_of_list_to_set.
  - intros f Hf Hd.
    assert (Hdom : dom dir = list_to_set
              ["testOutput"; "mypyc_notes.txt"; "abaqus.rpy"; "test_runner.py";
               "test_runner.pyc"])
      by (apply (bool_decide_unpack _); vm_compute; exact I).
    apply (elem_of_dom_2 dir f Directory) in Hd as Hin.
    rewrite Hdom in Hin. apply elem_of_list_to_set in Hin.
    repeat (apply elem_of_cons in Hin as [->|Hin];
            [vm_compute in Hd, Hf; discriminate|]).
    by apply elem_of_nil in Hin.
Defined.

Lemma remove_listed_keeps_directory (listing : list string) :
  forall (dir : gmap string kind) (d : string),
    dir !! d = Some Directory -> remove_listed listing dir !! d = Some Directory.
Proof.
  induction listing as [|g listing IH]; intros dir d Hd; [done|].
  cbn [remove_listed]. destruct (is_temporary g); [|by apply IH].
  destruct (dir !! g) as [[|]|] eqn:Eg; [|done|done].
  apply IH. rewrite lookup_delete_ne; [done|]. intros ->. congruence.
Qed.

Lemma remove_listed_app (before rest : list string) :
  forall dir : gmap string kind,
    remove_listed (before ++ rest)%list dir
    = remove_listed rest (remove_listed before dir)
    \/ remove_listed (before ++ rest)%list dir = remove_listed before dir.
Proof.
  induction before as [|g before IH]; intros dir; [by left|].
  cbn [remove_listed app]. destruct (is_temporary g); [|apply IH].
  destruct (dir !! g) as [[|]|]; [apply IH | by right | by right].
Qed.

(** A directory whose name matches a pattern ends the cleanup: [os.remove]
    raises on it, the [except] clause swallows the error, and the entries
    listed after the directory are never visited. *)
Theorem tearDown_stops_at_directory (before rest : list string) (d : string)
    (dir : gmap string kind) :
  is_temporary d = true ->
  dir !! d = Some Directory ->
  tearDown (before ++ d :: rest)%list dir = tearDown before dir.
Proof.
  unfold tearDown. intros Hd Hdir.
  destruct (remove_listed_app before (d :: rest) dir) as [E|E]; [|done].
  rewrite E. cbn [remove_listed]. rewrite Hd.
  by rewrite (remove_listed_keeps_directory before dir d Hdir).
Qed.

Lemma tearDown_stops_at_directory_witness :
  let dir : gmap string kind :=
    {[ "abaqus.rpy" := File; "__pycache__" := Directory;
       "abaqus.rec" := File ]} in
  tearDown ["abaqus.rpy"; "__pycache__"; "abaqus.rec"] dir !! "abaqus.rec"
  = Some File.
Proof.
  intros dir.
  pose proof (tearDown_stops_at_directory ["abaqus.rpy"] ["abaqus.rec"]
                "__pycache__" dir eq_refl eq_refl) as E.
  cbn [app] in E. rewrite E. reflexivity.
Defined.

End TearDownProperties.
